(** * Trace context propagation plugin (server/plugins/tracecontext.ts)

    A shallow embedding of the Nitro plugin that parses the W3C
    [traceparent] header, starts a server span under the remote parent,
    finishes it in the [beforeResponse] / [error] / [afterResponse]
    hooks, and normalises request paths through the PathReplace rule.

    Strings are sequences of 8-bit code units ([string]); Node decodes
    header bytes as latin1, so one [ascii] is one code unit of a header
    value.  JavaScript objects used as dictionaries (request headers,
    span attributes) are [gmap string _]. *)

From Stdlib Require Import ZArith Ascii String List Bool Lia DecimalString.
From stdpp Require Import gmap strings list.

Open Scope string_scope.
Open Scope list_scope.

(* ===================================================================== *)
(** * JavaScript primitives the plugin calls *)
(* ===================================================================== *)

Module JS.

(** [s.split(sep)] for a one-character separator: always at least one
    part, and one more part than there are separators. *)
Fixpoint split (sep : ascii) (s : string) : list string :=
  match s with
  | EmptyString => [EmptyString]
  | String c s' =>
      if Ascii.eqb c sep then EmptyString :: split sep s'
      else match split sep s' with
           | p :: ps => String c p :: ps
           | [] => [String c EmptyString]
           end
  end.

(** [parts.join(sep)]. *)
Fixpoint join (sep : string) (parts : list string) : string :=
  match parts with
  | [] => EmptyString
  | [p] => p
  | p :: ps => p +:+ sep +:+ join sep ps
  end.

(** Truthiness of a string value: only the empty string is falsy. *)
Definition truthy (s : string) : bool :=
  negb (String.eqb s EmptyString).

(** Truthiness of [string | undefined]. *)
Definition truthy_opt (o : option string) : bool :=
  match o with
  | Some s => truthy s
  | None => false
  end.

(** [s.startsWith(p)]. *)
Definition startsWith (p s : string) : bool := String.prefix p s.

(** [s.indexOf(p)], [None] standing for -1. *)
Definition indexOf (p s : string) : option nat := String.index 0 p s.

(** [s.substring(from)] up to the end of [s]. *)
Definition substringFrom (from : nat) (s : string) : string :=
  String.substring from (String.length s - from) s.

(** Code units that [parseInt] skips in front of the digits: TAB, LF,
    VT, FF, CR, SP and NBSP (the white space below U+0100). *)
Definition isWhiteSpace (c : ascii) : bool :=
  let n := nat_of_ascii c in
  (9 <=? n)%nat && (n <=? 13)%nat || (n =? 32)%nat || (n =? 160)%nat.

Fixpoint trimStart (s : string) : string :=
  match s with
  | String c s' => if isWhiteSpace c then trimStart s' else s
  | EmptyString => EmptyString
  end.

(** Value of a hexadecimal digit, either case. *)
Definition hexDigit (c : ascii) : option Z :=
  let n := nat_of_ascii c in
  if (48 <=? n)%nat && (n <=? 57)%nat then Some (Z.of_nat (n - 48))
  else if (97 <=? n)%nat && (n <=? 102)%nat then Some (Z.of_nat (n - 87))
  else if (65 <=? n)%nat && (n <=? 70)%nat then Some (Z.of_nat (n - 55))
  else None.

(** The longest prefix of hexadecimal digits, read as a number; [acc]
    is [None] until a digit has been seen. *)
Fixpoint hexDigits (s : string) (acc : option Z) : option Z :=
  match s with
  | String c s' =>
      match hexDigit c with
      | Some d => hexDigits s' (Some (16 * default 0%Z acc + d)%Z)
      | None => acc
      end
  | EmptyString => acc
  end.

(** A Number as [parseInt] can return it: NaN, an infinity, the
    negative zero, or a finite double, which is an integer here and is
    given as that integer. *)
Inductive Number :=
| NaN
| Infinity (negative : bool)
| NegativeZero
| Finite (z : Z).

(** The double nearest to the integer [m >= 0], as an integer: [m]
    itself when it has at most 53 significant bits, else [m] rounded
    to 53 significant bits, a tie going to the even significand. *)
Definition roundToDouble (m : Z) : Z :=
  let bits := (Z.log2 m + 1)%Z in
  if (bits <=? 53)%Z then m
  else
    let e := (bits - 53)%Z in
    let q := Z.shiftr m e in
    let r := Z.land m (Z.ones e) in
    let half := Z.shiftl 1 (e - 1) in
    let q' := if (half <? r)%Z || ((r =? half)%Z && Z.odd q) then (q + 1)%Z else q in
    Z.shiftl q' e.

(** The Number for a sign and a magnitude: the nearest double, an
    infinity from 2^1024 on, and the negative zero for [-0]. *)
Definition toNumber (negative : bool) (m : Z) : Number :=
  let r := roundToDouble m in
  if (Z.shiftl 1 1024 <=? r)%Z then Infinity negative
  else if negative then (if (r =? 0)%Z then NegativeZero else Finite (- r))
  else Finite r.

(** [parseInt(s, 16)]: leading white space, an optional sign, an
    optional [0x] / [0X], then the longest run of hex digits; NaN when
    there is no digit there, else the Number for what the digits
    spell. *)
Definition parseInt16 (s : string) : Number :=
  let s1 := trimStart s in
  let '(negative, s2) :=
    match s1 with
    | String "-" r => (true, r)
    | String "+" r => (false, r)
    | _ => (false, s1)
    end in
  let s3 :=
    match s2 with
    | String "0" (String "x" r) => r
    | String "0" (String "X" r) => r
    | _ => s2
    end in
  match hexDigits s3 None with
  | Some v => toNumber negative v
  | None => NaN
  end.

(** [String(n)] for a non-negative integer. *)
Definition numberToString (n : nat) : string :=
  NilZero.string_of_uint (Nat.to_uint n).

(** Decimal digit of a replacement template. *)
Definition decDigit (c : ascii) : option nat :=
  let n := nat_of_ascii c in
  if (48 <=? n)%nat && (n <=? 57)%nat then Some (n - 48)%nat else None.

(** A capture as it is substituted: [undefined] gives the empty
    string. *)
Definition captureText (captures : list (option string)) (index : nat) : option string :=
  match index with
  | O => None
  | S i =>
      match nth_error captures i with
      | Some (Some s) => Some s
      | Some None => Some EmptyString
      | None => None
      end
  end.

(** GetSubstitution of ECMA-262 without named groups: expands [$$],
    [$&], [$`], [$'], [$n] and [$nn] in the replacement template. *)
Fixpoint getSubstitution (matched before after : string)
         (captures : list (option string)) (template : string) : string :=
  match template with
  | EmptyString => EmptyString
  | String "$" (String c rest as tail) =>
      if Ascii.eqb c "$" then
        String "$" (getSubstitution matched before after captures rest)
      else if Ascii.eqb c "&" then
        matched +:+ getSubstitution matched before after captures rest
      else if Ascii.eqb c "`" then
        before +:+ getSubstitution matched before after captures rest
      else if Ascii.eqb c "'" then
        after +:+ getSubstitution matched before after captures rest
      else
        match decDigit c with
        | None => String "$" (getSubstitution matched before after captures tail)
        | Some d1 =>
            let oneDigit :=
              match captureText captures d1 with
              | Some s => s +:+ getSubstitution matched before after captures rest
              | None => String "$" (String c (getSubstitution matched before after captures rest))
              end in
            match rest with
            | String c2 rest2 =>
                match decDigit c2 with
                | Some d2 =>
                    if (10 * d1 + d2 <=? List.length captures)%nat then
                      match captureText captures (10 * d1 + d2) with
                      | Some s => s +:+ getSubstitution matched before after captures rest2
                      | None =>
                          String "$" (String c (String c2
                            (getSubstitution matched before after captures rest2)))
                      end
                    else oneDigit
                | None => oneDigit
                end
            | EmptyString => oneDigit
            end
        end
  | String c rest => String c (getSubstitution matched before after captures rest)
  end.

(** [s.replace(search, template)] with a string [search]: the first
    occurrence only; [s] itself when there is none. *)
Definition replaceString (search template s : string) : string :=
  match indexOf search s with
  | None => s
  | Some pos =>
      let before := String.substring 0 pos s in
      let after := substringFrom (pos + String.length search) s in
      before +:+ getSubstitution search before after [] template +:+ after
  end.

End JS.

(* ===================================================================== *)
(** * Regular expressions *)
(* ===================================================================== *)

Module RegExp.

(** What [RegExp.prototype.exec] reports for a match: where it starts,
    the matched text and the capture groups ([None] for a group that
    did not take part). *)
Record MatchResult := mkMatch {
  index : nat;
  matched : string;
  captures : list (option string)
}.

(** The host's regular-expression engine as the plugin uses it.  A
    RegExp object built by [new RegExp(source)] carries no flags and
    is used for one non-global [replace], so it is represented by its
    source text: [compiles source] tells whether the constructor
    returns (it throws a SyntaxError otherwise), and [exec source s]
    is the first match of the expression in [s]. *)
Record Engine := mkEngine {
  compiles : string -> bool;
  exec : string -> string -> option MatchResult
}.

(** [s.replace(re, template)] for a RegExp without the global flag. *)
Definition replaceRegExp (E : Engine) (source template s : string) : string :=
  match exec E source s with
  | None => s
  | Some r =>
      let before := String.substring 0 (index r) s in
      let after := JS.substringFrom (index r + String.length (matched r)) s in
      before +:+ JS.getSubstitution (matched r) before after (captures r) template +:+ after
  end.

(** ** A reference engine

    A backtracking matcher for the part of the pattern syntax that the
    documented PathReplace rules use: literal characters, [.], [^],
    [$], character classes with ranges, groups, alternation, and the
    greedy quantifiers [*], [+] and [?].  It rejects any other
    syntax. *)

Inductive re :=
| Empty
| Chr (c : ascii)
| AnyChar
| Class (negated : bool) (ranges : list (ascii * ascii))
| Bol
| Eol
| Seq (a b : re)
| Alt (a b : re)
| Star (a : re)
| Opt (a : re)
| Group (i : nat) (a : re).

Definition charOf (n : nat) : ascii := ascii_of_nat n.

Definition digitRanges : list (ascii * ascii) := [("0", "9")]%char.
Definition wordRanges : list (ascii * ascii) :=
  [("a", "z"); ("A", "Z"); ("0", "9"); ("_", "_")]%char.
Definition spaceRanges : list (ascii * ascii) :=
  [(charOf 9, charOf 13); (" ", " ")%char; (charOf 160, charOf 160)].

Definition isAlnum (c : ascii) : bool :=
  let n := nat_of_ascii c in
  (48 <=? n)%nat && (n <=? 57)%nat || (65 <=? n)%nat && (n <=? 90)%nat
  || (97 <=? n)%nat && (n <=? 122)%nat.

(** The character an escape [\c] denotes when it denotes one. *)
Definition escapedChar (c : ascii) : option ascii :=
  if Ascii.eqb c "t" then Some (charOf 9)
  else if Ascii.eqb c "n" then Some (charOf 10)
  else if Ascii.eqb c "v" then Some (charOf 11)
  else if Ascii.eqb c "f" then Some (charOf 12)
  else if Ascii.eqb c "r" then Some (charOf 13)
  else if isAlnum c then None
  else Some c.

(** The ranges a class escape [\d], [\w], [\s] denotes. *)
Definition escapedClass (c : ascii) : option (list (ascii * ascii)) :=
  if Ascii.eqb c "d" then Some digitRanges
  else if Ascii.eqb c "w" then Some wordRanges
  else if Ascii.eqb c "s" then Some spaceRanges
  else None.

(** The members of [[...]], read up to and including the closing
    bracket. *)
Fixpoint parseClass (fuel : nat) (input : list ascii) (acc : list (ascii * ascii))
  : option (list (ascii * ascii) * list ascii) :=
  match fuel with
  | O => None
  | S fuel' =>
      match input with
      | [] => None
      | "]"%char :: rest => Some (rev acc, rest)
      | "\"%char :: c :: rest =>
          match escapedClass c with
          | Some rs => parseClass fuel' rest (rev rs ++ acc)
          | None =>
              match (if Ascii.eqb c "b" then Some (charOf 8) else escapedChar c) with
              | Some lo => parseClassRange fuel' lo rest acc
              | None => None
              end
          end
      | "\"%char :: [] => None
      | lo :: rest => parseClassRange fuel' lo rest acc
      end
  end
with parseClassRange (fuel : nat) (lo : ascii) (input : list ascii) (acc : list (ascii * ascii))
  : option (list (ascii * ascii) * list ascii) :=
  match fuel with
  | O => None
  | S fuel' =>
      match input with
      | "-"%char :: "]"%char :: rest => Some (rev (("-", "-")%char :: (lo, lo) :: acc), rest)
      | "-"%char :: "\"%char :: c :: rest =>
          match (if Ascii.eqb c "b" then Some (charOf 8) else escapedChar c) with
          | Some hi =>
              if (nat_of_ascii lo <=? nat_of_ascii hi)%nat
              then parseClass fuel' rest ((lo, hi) :: acc)
              else None
          | None => None
          end
      | "-"%char :: hi :: rest =>
          if (nat_of_ascii lo <=? nat_of_ascii hi)%nat
          then parseClass fuel' rest ((lo, hi) :: acc)
          else None
      | _ => parseClass fuel' input ((lo, lo) :: acc)
      end
  end.

(** A quantifier after an atom.  Lazy quantifiers and braces are
    outside the subset. *)
Definition parseQuantifier (atom : re) (input : list ascii) : option (re * list ascii) :=
  let notLazy (r : re) (rest : list ascii) :=
    match rest with
    | "?"%char :: _ => None
    | _ => Some (r, rest)
    end in
  match input with
  | "*"%char :: rest => notLazy (Star atom) rest
  | "+"%char :: rest => notLazy (Seq atom (Star atom)) rest
  | "?"%char :: rest => notLazy (Opt atom) rest
  | "{"%char :: _ => None
  | _ => Some (atom, input)
  end.

(** Disjunction, alternative and term of the pattern grammar;
    [groups] counts the capturing parentheses opened so far. *)
Fixpoint parseDisjunction (fuel : nat) (groups : nat) (input : list ascii)
  : option (re * nat * list ascii) :=
  match fuel with
  | O => None
  | S fuel' =>
      match parseAlternative fuel' groups input with
      | Some (a, g, "|"%char :: rest) =>
          match parseDisjunction fuel' g rest with
          | Some (b, g', rest') => Some (Alt a b, g', rest')
          | None => None
          end
      | other => other
      end
  end
with parseAlternative (fuel : nat) (groups : nat) (input : list ascii)
  : option (re * nat * list ascii) :=
  match fuel with
  | O => None
  | S fuel' =>
      match input with
      | [] => Some (Empty, groups, input)
      | "|"%char :: _ => Some (Empty, groups, input)
      | ")"%char :: _ => Some (Empty, groups, input)
      | _ =>
          match parseTerm fuel' groups input with
          | Some (t, g, rest) =>
              match parseAlternative fuel' g rest with
              | Some (r, g', rest') => Some (Seq t r, g', rest')
              | None => None
              end
          | None => None
          end
      end
  end
with parseTerm (fuel : nat) (groups : nat) (input : list ascii)
  : option (re * nat * list ascii) :=
  match fuel with
  | O => None
  | S fuel' =>
      let quantified (atom : re) (g : nat) (rest : list ascii) :=
        match parseQuantifier atom rest with
        | Some (r, rest') => Some (r, g, rest')
        | None => None
        end in
      match input with
      | [] => None
      | "^"%char :: rest => Some (Bol, groups, rest)
      | "$"%char :: rest => Some (Eol, groups, rest)
      | "("%char :: "?"%char :: ":"%char :: rest =>
          match parseDisjunction fuel' groups rest with
          | Some (r, g, ")"%char :: rest') => quantified r g rest'
          | _ => None
          end
      | "("%char :: "?"%char :: _ => None
      | "("%char :: rest =>
          match parseDisjunction fuel' (S groups) rest with
          | Some (r, g, ")"%char :: rest') => quantified (Group groups r) g rest'
          | _ => None
          end
      | "["%char :: "^"%char :: rest =>
          match parseClass (2 * List.length rest + 2) rest [] with
          | Some (rs, rest') => quantified (Class true rs) groups rest'
          | None => None
          end
      | "["%char :: rest =>
          match parseClass (2 * List.length rest + 2) rest [] with
          | Some (rs, rest') => quantified (Class false rs) groups rest'
          | None => None
          end
      | "\"%char :: c :: rest =>
          match escapedClass c with
          | Some rs => quantified (Class false rs) groups rest
          | None =>
              if Ascii.eqb c "D" then quantified (Class true digitRanges) groups rest
              else if Ascii.eqb c "W" then quantified (Class true wordRanges) groups rest
              else if Ascii.eqb c "S" then quantified (Class true spaceRanges) groups rest
              else match escapedChar c with
                   | Some x => quantified (Chr x) groups rest
                   | None => None
                   end
          end
      | "."%char :: rest => quantified AnyChar groups rest
      | c :: rest =>
          if existsb (Ascii.eqb c) ["*"; "+"; "?"; "{"; "}"; "]"; "\"]%char
          then None
          else quantified (Chr c) groups rest
      end
  end.

(** A whole pattern: its expression and its number of capturing
    groups. *)
Definition parse (source : string) : option (re * nat) :=
  let input := list_ascii_of_string source in
  match parseDisjunction (3 * List.length input + 3) 0 input with
  | Some (r, g, []) => Some (r, g)
  | _ => None
  end.

(** The state of a match attempt: the position reached, the input
    from there on, and the captures so far. *)
Record MState := mkMState {
  pos : nat;
  rest : list ascii;
  caps : list (option string)
}.

Definition inRanges (ranges : list (ascii * ascii)) (c : ascii) : bool :=
  existsb (fun r => (nat_of_ascii (fst r) <=? nat_of_ascii c)%nat
                    && (nat_of_ascii c <=? nat_of_ascii (snd r))%nat) ranges.

Definition isLineTerminator (c : ascii) : bool :=
  (nat_of_ascii c =? 10)%nat || (nat_of_ascii c =? 13)%nat.

(** Consume one character that satisfies [p]. *)
Definition step (p : ascii -> bool) (st : MState) (k : MState -> option MState)
  : option MState :=
  match rest st with
  | c :: cs => if p c then k (mkMState (S (pos st)) cs (caps st)) else None
  | [] => None
  end.

Fixpoint setNth {A} (i : nat) (x : A) (l : list A) : list A :=
  match l, i with
  | [], _ => []
  | _ :: l', O => x :: l'
  | y :: l', S i' => y :: setNth i' x l'
  end.

(** The capturing groups inside an expression. *)
Fixpoint groupsOf (r : re) : list nat :=
  match r with
  | Seq a b | Alt a b => groupsOf a ++ groupsOf b
  | Star a | Opt a => groupsOf a
  | Group i a => i :: groupsOf a
  | _ => []
  end.

(** At the start of each iteration of a quantified atom its groups
    are undefined again. *)
Definition resetCaps (r : re) (st : MState) : MState :=
  mkMState (pos st) (rest st)
           (fold_right (fun i cs => setNth i None cs) (caps st) (groupsOf r)).

(** The matcher, in continuation-passing style: [matchRe r st k]
    matches [r] at [st] and hands each way of doing so to [k] in the
    engine's order of preference, until [k] accepts one. *)
Fixpoint matchRe (r : re) (st : MState) (k : MState -> option MState) {struct r}
  : option MState :=
  match r with
  | Empty => k st
  | Chr c => step (Ascii.eqb c) st k
  | AnyChar => step (fun c => negb (isLineTerminator c)) st k
  | Class negated ranges =>
      step (fun c => if negated then negb (inRanges ranges c) else inRanges ranges c) st k
  | Bol => if (pos st =? 0)%nat then k st else None
  | Eol => match rest st with [] => k st | _ => None end
  | Seq a b => matchRe a st (fun st' => matchRe b st' k)
  | Alt a b =>
      match matchRe a st k with
      | Some res => Some res
      | None => matchRe b st k
      end
  | Star a =>
      (fix iterate (fuel : nat) (st : MState) {struct fuel} : option MState :=
         match fuel with
         | O => k st
         | S fuel' =>
             match matchRe a (resetCaps a st)
                     (fun st' => if (pos st <? pos st')%nat then iterate fuel' st' else None) with
             | Some res => Some res
             | None => k st
             end
         end) (S (List.length (rest st))) st
  | Opt a =>
      match matchRe a (resetCaps a st)
              (fun st' => if (pos st <? pos st')%nat then k st' else None) with
      | Some res => Some res
      | None => k st
      end
  | Group i a =>
      matchRe a st (fun st' =>
        let text := string_of_list_ascii (firstn (pos st' - pos st) (rest st)) in
        k (mkMState (pos st') (rest st') (setNth i (Some text) (caps st'))))
  end.

(** The leftmost match of [r] in the input from position [start]
    on. *)
Fixpoint execFrom (r : re) (groups : nat) (start : nat) (input : list ascii)
  : option MatchResult :=
  match matchRe r (mkMState start input (repeat None groups)) Some with
  | Some st =>
      Some (mkMatch start (string_of_list_ascii (firstn (pos st - start) input)) (caps st))
  | None =>
      match input with
      | [] => None
      | _ :: input' => execFrom r groups (S start) input'
      end
  end.

Definition reference : Engine :=
  {| compiles := fun source => match parse source with Some _ => true | None => false end;
     exec := fun source s =>
       match parse source with
       | Some (r, groups) => execFrom r groups 0 (list_ascii_of_string s)
       | None => None
       end |}.

End RegExp.


(* ===================================================================== *)
(** * The OpenTelemetry API the plugin is written against *)
(* ===================================================================== *)

Module Otel.

Inductive SpanKind := INTERNAL | SERVER | CLIENT | PRODUCER | CONSUMER.

Inductive SpanStatusCode := UNSET | OK | ERROR.

Record SpanStatus := mkStatus {
  code : SpanStatusCode;
  message : option string
}.

(** [traceFlags] is the Number [parseInt] returned. *)
Record SpanContext := mkSpanContext {
  traceId : string;
  spanId : string;
  traceFlags : JS.Number;
  isRemote : bool
}.

(** An attribute value as the plugin passes it: a string, a number,
    or [undefined] for a header that is not there.  A span does not
    keep an [undefined] value: [AUndefined] under a key reads as no
    attribute under that key. *)
Inductive AttributeValue :=
| AString (s : string)
| ANumber (n : nat)
| AUndefined.

Definition ofHeader (h : option string) : AttributeValue :=
  match h with
  | Some s => AString s
  | None => AUndefined
  end.

(** A thrown value as the [error] hook reads it. *)
Record Exception := mkException {
  exceptionName : string;
  exceptionMessage : string
}.

(** The span object behind a span handle.  [endCalls] counts the
    calls of [end()] on the object: the span has ended once there was
    one, and telling the first call from the later ones tells which
    call handed the span to the exporter.  [implementsIsEnded] tells
    whether the object has an [isEnded] method: the hooks call it as
    [span.isEnded?.()], which is [undefined] on an object without
    one. *)
Record Span := mkSpan {
  spanContext : SpanContext;
  parentSpanId : option string;
  name : string;
  kind : SpanKind;
  attributes : gmap string AttributeValue;
  status : SpanStatus;
  exceptions : list Exception;
  endCalls : nat;
  implementsIsEnded : bool
}.

(** Whether the span has ended. *)
Definition ended (sp : Span) : bool := negb (endCalls sp =? 0)%nat.

Record SpanOptions := mkSpanOptions {
  optKind : SpanKind;
  optAttributes : gmap string AttributeValue
}.

(** [tracer.startSpan(name, options, parentContext)]; the parent
    context is the one [trace.setSpanContext(context.active(), c)]
    builds around the span context [c]. *)
Record Tracer := mkTracer {
  startSpan : string -> SpanOptions -> SpanContext -> Span
}.

(** [span.setAttributes(attrs)]: the given keys replace or extend the
    attributes of the span.  A span that has ended is read-only: this
    call and the two below return without recording anything. *)
Definition setAttributes (attrs : gmap string AttributeValue) (sp : Span) : Span :=
  if ended sp then sp
  else mkSpan (spanContext sp) (parentSpanId sp) (name sp) (kind sp)
              (attrs ∪ attributes sp) (status sp) (exceptions sp) (endCalls sp)
              (implementsIsEnded sp).

(** [span.setStatus(status)]. *)
Definition setStatus (st : SpanStatus) (sp : Span) : Span :=
  if ended sp then sp
  else mkSpan (spanContext sp) (parentSpanId sp) (name sp) (kind sp)
              (attributes sp) st (exceptions sp) (endCalls sp) (implementsIsEnded sp).

(** [span.recordException(error)]. *)
Definition recordException (e : Exception) (sp : Span) : Span :=
  if ended sp then sp
  else mkSpan (spanContext sp) (parentSpanId sp) (name sp) (kind sp)
              (attributes sp) (status sp) (exceptions sp ++ [e]) (endCalls sp)
              (implementsIsEnded sp).

(** The span object after [span.end()]: one more call, and ended. *)
Definition finish (sp : Span) : Span :=
  mkSpan (spanContext sp) (parentSpanId sp) (name sp) (kind sp)
         (attributes sp) (status sp) (exceptions sp) (S (endCalls sp))
         (implementsIsEnded sp).

(** [span.end()].  [calls] is the log of the calls of [end()], one
    entry per call, each the span as the call leaves it; which of the
    entries the exporter gets is told by [finalizeEvents] below. *)
Definition endSpan (sp : Span) (calls : list Span) : Span * list Span :=
  (finish sp, calls ++ [finish sp]).

(** The finalize events among the logged calls.  [end()] hands the
    span over to be exported when the span has not ended yet, and
    returns at once when it has (the SDK's span writes a diagnostic
    and does nothing else), so an entry is a finalize event when it
    is the first call on its span. *)
Definition finalizeEvents (calls : list Span) : list Span :=
  List.filter (fun sp => (endCalls sp =? 1)%nat) calls.

(** Two states of a span that differ at most in how often [end()]
    was called: what was recorded is the same, and so is whether the
    span has ended. *)
Definition sameState (sp sp' : Span) : Prop :=
  spanContext sp' = spanContext sp
  /\ parentSpanId sp' = parentSpanId sp
  /\ name sp' = name sp
  /\ kind sp' = kind sp
  /\ attributes sp' = attributes sp
  /\ status sp' = status sp
  /\ exceptions sp' = exceptions sp
  /\ ended sp' = ended sp
  /\ implementsIsEnded sp' = implementsIsEnded sp.

(** [span.isEnded?.()]: [None] is the [undefined] of the optional
    call on an object without the method. *)
Definition isEnded (sp : Span) : option bool :=
  if implementsIsEnded sp then Some (ended sp) else None.

(** Truthiness of [boolean | undefined]. *)
Definition truthy (v : option bool) : bool :=
  match v with
  | Some b => b
  | None => false
  end.

(** A tracer that starts every span as a child of the parent context
    it is given: same trace, a span id of its own, nothing recorded
    yet. *)
Definition childTracer (newSpanId : string) : Tracer :=
  {| startSpan := fun name options parent =>
       mkSpan (mkSpanContext (traceId parent) newSpanId (traceFlags parent) false)
              (Some (spanId parent)) name (optKind options) (optAttributes options)
              (mkStatus UNSET None) [] 0 true |}.

(** The contract of a tracer that the plugin relies on: a span
    started under a parent context belongs to the parent's trace. *)
Definition joinsParentTrace (T : Tracer) : Prop :=
  forall name options parent,
    traceId (spanContext (startSpan T name options parent)) = traceId parent.

(** [isValidTraceId] and [isValidSpanId] of the API: 32, respectively
    16, hex digits of either case, not all of them zero. *)
Definition isValidId (len : nat) (id : string) : bool :=
  (String.length id =? len)%nat
  && forallb (fun c => match JS.hexDigit c with Some _ => true | None => false end)
             (list_ascii_of_string id)
  && negb (forallb (Ascii.eqb "0") (list_ascii_of_string id)).

Definition isValidTraceId : string -> bool := isValidId 32.

Definition isValidSpanId : string -> bool := isValidId 16.

(** [trace.isSpanContextValid]. *)
Definition isSpanContextValid (c : SpanContext) : bool :=
  isValidTraceId (traceId c) && isValidSpanId (spanId c).

(** The SDK's tracer, with an always-on sampler: a span under a valid
    parent context continues the parent's trace, and a span under any
    other context starts a trace of its own, under an id from the id
    generator.  [newTraceId] and [newSpanId] are what the generator
    gives; the span object has no [isEnded] method. *)
Definition sdkTracer (newTraceId newSpanId : string) : Tracer :=
  {| startSpan := fun name options parent =>
       if isSpanContextValid parent
       then mkSpan (mkSpanContext (traceId parent) newSpanId (JS.Finite 1) false)
                   (Some (spanId parent)) name (optKind options) (optAttributes options)
                   (mkStatus UNSET None) [] 0 false
       else mkSpan (mkSpanContext newTraceId newSpanId (JS.Finite 1) false)
                   None name (optKind options) (optAttributes options)
                   (mkStatus UNSET None) [] 0 false |}.

End Otel.

(* ===================================================================== *)
(** * The plugin *)
(* ===================================================================== *)

(** ** PathReplace configuration *)

(** [pathReplacePattern]: a RegExp object or a string. *)
Inductive Pattern :=
| PRegExp (source : string)
| PString (s : string).

(** The two module-level variables, [None] for [null]; for a
    replacement that is not a string see [storedReplacement]. *)
Record PathReplace := mkPathReplace {
  pathReplacePattern : option Pattern;
  pathReplaceReplacement : option string
}.

Definition unconfigured : PathReplace := mkPathReplace None None.

(** An element of the parsed array: a string, [null], a boolean, or
    a number, taken here to be a non-negative integer below 2^53,
    whose text is its decimal digits.  Other numbers, arrays and
    objects as elements are not covered. *)
Inductive Element :=
| EString (s : string)
| ENull
| EBoolean (b : bool)
| ENumber (n : nat).

(** What [JSON.parse] returned, as far as the plugin looks at it: an
    array or something else. *)
Inductive Parsed :=
| NotArray
| JsonArray (items : list Element).

(** The replacement as [normalizePath] meets it.  The variable holds
    the second element whatever it is; [normalizePath] tests it for
    truthiness and hands it to [replace], which takes its ToString.
    [None] stands for a value that is falsy without being a string
    ([null], [false], [0]), and a truthy boolean or number stands as
    its text. *)
Definition storedReplacement (replacement : Element) : option string :=
  match replacement with
  | EString r => Some r
  | ENull => None
  | EBoolean b => if b then Some "true" else None
  | ENumber n => if (n =? 0)%nat then None else Some (JS.numberToString n)
  end.

(** The characters of the class in [/[.*+?^${}()|[\]\\]/]. *)
Definition regexSpecialChars : list ascii :=
  ["."; "*"; "+"; "?"; "^"; "$"; "{"; "}"; "("; ")"; "|"; "["; "]"; "\"]%char.

(** [/[.*+?^${}()|[\]\\]/.test(pattern)]: some character of the
    pattern is in the class. *)
Definition testRegexSpecial (pattern : string) : bool :=
  existsb (fun c => existsb (Ascii.eqb c) regexSpecialChars) (list_ascii_of_string pattern).

Section Plugin.

(** The host: its regular-expression engine, its [JSON.parse]
    ([None] when it throws), and the tracer obtained from
    [trace.getTracer]. *)
Variable engine : RegExp.Engine.
Variable jsonParse : string -> option Parsed.
Variable tracer : Otel.Tracer.

(** The module-level [try] block that reads
    [NUXT_OPENTELEMETRY_PATH_REPLACE].  Whatever is thrown inside
    (by [JSON.parse], by [pattern.startsWith] on a pattern that is
    not a string, or by [new RegExp]) is caught before either
    variable is assigned.  The pattern is assigned first and the
    replacement after it, as it is. *)
Definition configure (env : option string) : PathReplace :=
  match env with
  | None => unconfigured
  | Some pathReplaceConfig =>
      if JS.truthy pathReplaceConfig then
        match jsonParse pathReplaceConfig with
        | None => unconfigured
        | Some (JsonArray [EString pattern; replacement]) =>
            if JS.startsWith "^" pattern || testRegexSpecial pattern then
              if RegExp.compiles engine pattern
              then mkPathReplace (Some (PRegExp pattern)) (storedReplacement replacement)
              else unconfigured
            else mkPathReplace (Some (PString pattern)) (storedReplacement replacement)
        | Some _ => unconfigured
        end
      else unconfigured
  end.

(** Truthiness of [pathReplacePattern]: a RegExp object is truthy, a
    string is unless it is empty. *)
Definition patternTruthy (p : option Pattern) : bool :=
  match p with
  | None => false
  | Some (PRegExp _) => true
  | Some (PString s) => JS.truthy s
  end.

Variable config : PathReplace.

(** [normalizePath]. *)
Definition normalizePath (path : string) : string :=
  if negb (patternTruthy (pathReplacePattern config))
     || negb (JS.truthy_opt (pathReplaceReplacement config))
  then path
  else
    match pathReplacePattern config, pathReplaceReplacement config with
    | Some (PRegExp source), Some replacement =>
        RegExp.replaceRegExp engine source replacement path
    | Some (PString search), Some replacement =>
        JS.replaceString search replacement path
    | _, _ => path
    end.

(** ** The request and its event *)

(** [event.node.req]. *)
Record IncomingMessage := mkReq {
  headers : gmap string string;
  url : option string
}.

(** [event.node.res]: [statusCode] and what [getHeader] finds. *)
Record ServerResponse := mkRes {
  statusCode : nat;
  responseHeaders : gmap string string
}.

(** [event.context], of which the plugin uses the [span] slot. *)
Record EventContext := mkContext {
  span : option Otel.Span
}.

Record H3Event := mkEvent {
  method : string;
  path : string;
  req : IncomingMessage;
  res : ServerResponse;
  context : EventContext
}.

Definition setSpan (event : H3Event) (s : option Otel.Span) : H3Event :=
  mkEvent (method event) (path event) (req event) (res event) (mkContext s).

(** ** The [request] hook *)

(** Lines 86-112: the header is read and split, and the remote span
    context is built from the parts.  [None] is either early
    [return]. *)
Definition remoteSpanContext (traceparent : option string) : option Otel.SpanContext :=
  match traceparent with
  | None => None
  | Some traceparent =>
      if negb (JS.truthy traceparent) then None
      else
        match JS.split "-" traceparent with
        | [_; incomingTraceId; parentSpanId; traceFlags] =>
            Some (Otel.mkSpanContext incomingTraceId parentSpanId
                                     (JS.parseInt16 traceFlags) true)
        | _ => None
        end
  end.

(** [event.path || event.node.req.url || '/']. *)
Definition requestPath (event : H3Event) : string :=
  if JS.truthy (path event) then path event
  else if JS.truthy_opt (url (req event)) then default "/" (url (req event))
  else "/".

(** The attributes the span is started with; [now] is
    [new Date().toISOString()]. *)
Definition requestAttributes (now : string) (event : H3Event)
  : gmap string Otel.AttributeValue :=
  {[ "http.request.method" := Otel.AString (method event);
     "url.path" := Otel.AString (requestPath event);
     "http.route" := Otel.AString (normalizePath (requestPath event));
     "url.scheme" := Otel.AString "http";
     "http.request.header.x-user-agent" :=
       Otel.ofHeader (headers (req event) !! "user-agent");
     "http.request.header.x-request-time" := Otel.AString now;
     "http.request.header.x-client-id" :=
       Otel.ofHeader (headers (req event) !! "x-client-id") ]}.

(** The hook: the event as it leaves it.  Each hook body sits in a
    [try] whose [catch] only logs; nothing the hooks call throws in
    this model, and what they write to the console is left out. *)
Definition request (now : string) (event : H3Event) : H3Event :=
  match remoteSpanContext (headers (req event) !! "traceparent") with
  | None => event
  | Some parentContext =>
      let normalizedPath := normalizePath (requestPath event) in
      let span :=
        Otel.startSpan tracer
          (method event +:+ " " +:+ normalizedPath)
          (Otel.mkSpanOptions Otel.SERVER (requestAttributes now event))
          parentContext in
      setSpan event (Some span)
  end.

(** ** The [beforeResponse] hook *)

(** [event.node.res.statusCode || 200]. *)
Definition responseStatusCode (event : H3Event) : nat :=
  if (statusCode (res event) =? 0)%nat then 200%nat else statusCode (res event).

Definition responseAttributes (event : H3Event) : gmap string Otel.AttributeValue :=
  {[ "http.response.status_code" := Otel.ANumber (responseStatusCode event);
     "http.response.header.content-type" :=
       Otel.ofHeader (responseHeaders (res event) !! "content-type");
     "http.response.header.content-length" :=
       Otel.ofHeader (responseHeaders (res event) !! "content-length") ]}.

(** The status the hook sets for a status code. *)
Definition responseStatus (statusCode : nat) : Otel.SpanStatus :=
  if (400 <=? statusCode)%nat
  then Otel.mkStatus Otel.ERROR (Some ("HTTP " +:+ JS.numberToString statusCode))
  else Otel.mkStatus Otel.OK None.

(** The event and the log of [end()] after the hook. *)
Definition beforeResponse (event : H3Event) (calls : list Otel.Span)
  : H3Event * list Otel.Span :=
  match span (context event) with
  | None => (event, calls)
  | Some sp =>
      if Otel.truthy (Otel.isEnded sp) then (event, calls)
      else
        let sp1 := Otel.setAttributes (responseAttributes event) sp in
        let sp2 := Otel.setStatus (responseStatus (responseStatusCode event)) sp1 in
        let '(sp3, calls') := Otel.endSpan sp2 calls in
        (setSpan event (Some sp3), calls')
  end.

(** ** The [error] hook *)

(** The hook is called with [(error, { event })], where [event] can
    be [undefined]; [event?.context?.span] is [undefined] then. *)
Definition error (err : Otel.Exception) (event : option H3Event)
           (calls : list Otel.Span) : option H3Event * list Otel.Span :=
  match event with
  | None => (None, calls)
  | Some ev =>
      match span (context ev) with
      | None => (event, calls)
      | Some sp =>
          if Otel.truthy (Otel.isEnded sp) then (event, calls)
          else
            let sp1 := Otel.recordException err sp in
            let sp2 :=
              Otel.setStatus
                (Otel.mkStatus Otel.ERROR (Some (Otel.exceptionMessage err))) sp1 in
            let '(sp3, calls') := Otel.endSpan sp2 calls in
            (Some (setSpan ev (Some sp3)), calls')
      end
  end.

(** ** The [afterResponse] hook *)

(** The span is ended unless [isEnded] says it already is, and the
    [span] slot is deleted from the context. *)
Definition afterResponse (event : H3Event) (calls : list Otel.Span)
  : H3Event * list Otel.Span :=
  match span (context event) with
  | None => (event, calls)
  | Some sp =>
      let calls' :=
        if negb (Otel.truthy (Otel.isEnded sp))
        then snd (Otel.endSpan sp calls)
        else calls in
      (setSpan event None, calls')
  end.

(** ** The life cycle of one request *)

(** The callbacks the host delivers after [request]. *)
Inductive Callback :=
| BeforeResponse
| OnError (err : Otel.Exception)
| AfterResponse.

Definition deliver (cb : Callback) (st : H3Event * list Otel.Span)
  : H3Event * list Otel.Span :=
  match cb with
  | BeforeResponse => beforeResponse (fst st) (snd st)
  | OnError err =>
      let '(event', calls') := error err (Some (fst st)) (snd st) in
      (default (fst st) event', calls')
  | AfterResponse => afterResponse (fst st) (snd st)
  end.

Definition deliverAll (cbs : list Callback) (st : H3Event * list Otel.Span)
  : H3Event * list Otel.Span :=
  fold_left (fun s cb => deliver cb s) cbs st.

(** The state of the request's span as the manager sees it through
    [event.context.span]. *)
Inductive SpanState := NoSpan | Active | Ended.

Definition spanState (event : H3Event) : SpanState :=
  match span (context event) with
  | None => NoSpan
  | Some sp => if Otel.ended sp then Ended else Active
  end.

End Plugin.


(** ** What the specification asks of a header's fields

    The spec's wording of a well-formed header, kept apart from the
    hook so that the two can be compared: field 2 is 32 lowercase hex
    characters, field 3 is 16 lowercase hex characters, field 4 is 2
    hex characters. *)

Definition isLowerHex (c : ascii) : bool :=
  let n := nat_of_ascii c in
  (48 <=? n)%nat && (n <=? 57)%nat || (97 <=? n)%nat && (n <=? 102)%nat.

Definition isHex (c : ascii) : bool :=
  isLowerHex c || (65 <=? nat_of_ascii c)%nat && (nat_of_ascii c <=? 70)%nat.

Definition specFieldsValid (traceId parentSpanId traceFlags : string) : bool :=
  (String.length traceId =? 32)%nat
  && forallb isLowerHex (list_ascii_of_string traceId)
  && (String.length parentSpanId =? 16)%nat
  && forallb isLowerHex (list_ascii_of_string parentSpanId)
  && (String.length traceFlags =? 2)%nat
  && forallb isHex (list_ascii_of_string traceFlags).

(** An id as the W3C format has it: [len] lowercase hex characters,
    not all of them zero. *)
Definition wellFormedId (len : nat) (id : string) : bool :=
  (String.length id =? len)%nat
  && forallb isLowerHex (list_ascii_of_string id)
  && negb (forallb (Ascii.eqb "0") (list_ascii_of_string id)).

(** What the plugin can rely on in a tracer: a span started under a
    parent context with a well-formed trace id and span id belongs to
    the parent's trace. *)
Definition continuesValidTrace (T : Otel.Tracer) : Prop :=
  forall name options parent,
    wellFormedId 32 (Otel.traceId parent) = true ->
    wellFormedId 16 (Otel.spanId parent) = true ->
    Otel.traceId (Otel.spanContext (Otel.startSpan T name options parent))
    = Otel.traceId parent.

(** Whether the configured pattern occurs in a path: the regular
    expression has a match, or the string is a substring. *)
Definition patternMatches (engine : RegExp.Engine) (config : PathReplace) (path : string) : bool :=
  match pathReplacePattern config with
  | Some (PRegExp source) =>
      match RegExp.exec engine source path with Some _ => true | None => false end
  | Some (PString search) =>
      match JS.indexOf search path with Some _ => true | None => false end
  | None => false
  end.

(** The spec's wording of the classification heuristic: the pattern
    begins with [^] or contains one of the listed metacharacters. *)
Definition isMetachar (c : ascii) : Prop :=
  (c = "." \/ c = "*" \/ c = "+" \/ c = "?" \/ c = "^" \/ c = "$" \/ c = "{" \/ c = "}"
   \/ c = "(" \/ c = ")" \/ c = "|" \/ c = "[" \/ c = "]" \/ c = "\")%char.

Definition looksLikeRegExp (pattern : string) : Prop :=
  (exists rest, pattern = String "^" rest)
  \/ exists c, In c (list_ascii_of_string pattern) /\ isMetachar c.

(** The request needs no more finishing: it holds no span, or an
    ended one whose handle answers [isEnded]. *)
Definition settled (event : H3Event) : Prop :=
  match span (context event) with
  | None => True
  | Some sp => Otel.ended sp = true /\ Otel.implementsIsEnded sp = true
  end.

(** Nothing is left to export for the request: it holds no span, or
    one that has ended. *)
Definition finished (event : H3Event) : Prop :=
  match span (context event) with
  | None => True
  | Some sp => Otel.ended sp = true
  end.

(** ** Example data *)

Definition exampleTraceparent : string :=
  "00-909345e985cb1d64cab2231a9fd2459d-fa583390dc4a57f0-01".

Definition exampleTracer : Otel.Tracer := Otel.childTracer "00f067aa0ba902b7".

(** A POST to [/api/hash] with the given request headers, before any
    hook has run. *)
Definition exampleEvent (hdrs : gmap string string) : H3Event :=
  mkEvent "POST" "/api/hash" (mkReq hdrs (Some "/api/hash"))
          (mkRes 200 {[ "content-type" := "application/json" ]}) (mkContext None).

Definition exampleNow : string := "2025-01-06T10:00:00.000Z".

(** The SDK's tracer with an id generator that gives these two ids. *)
Definition exampleSdkTracer : Otel.Tracer :=
  Otel.sdkTracer "4bf92f3577b34da6a3ce929d0e0e4736" "00f067aa0ba902b7".

Definition localeRule : list string := ["^/(en|de|fr)/"; "/:locale/"].

(** The same request once the [request] hook has run on it with the
    example header: its context holds an active span. *)
Definition exampleTracedEvent : H3Event :=
  request RegExp.reference exampleTracer unconfigured exampleNow
          (exampleEvent {[ "traceparent" := exampleTraceparent ]}).

Definition boom : Otel.Exception := Otel.mkException "Error" "boom".

(** The same request with the SDK's tracer behind the hook. *)
Definition exampleSdkEvent : H3Event :=
  request RegExp.reference exampleSdkTracer unconfigured exampleNow
          (exampleEvent {[ "traceparent" := exampleTraceparent ]}).

(** That request once the [error] hook has ended its span, with the
    log of [end()] so far. *)
Definition exampleEndedEvent : H3Event * list Otel.Span :=
  deliver (OnError boom) (exampleSdkEvent, []).

(** That event with another status code on the response. *)
Definition withStatusCode (code : nat) (event : H3Event) : H3Event :=
  mkEvent (method event) (path event) (req event)
          (mkRes code (responseHeaders (res event))) (context event).

(** A [JSON.parse] that returns the given array for every input. *)
Definition parsesTo (items : list string) : string -> option Parsed :=
  fun _ => Some (JsonArray (map EString items)).

(** ** Vocabulary of the further properties *)

(** How often a character occurs in a string. *)
Fixpoint countChar (c : ascii) (s : string) : nat :=
  match s with
  | EmptyString => 0
  | String x s' => if Ascii.eqb x c then S (countChar c s') else countChar c s'
  end.

(** A replacement template without [$]: nothing in it is special to
    [replace]. *)
Definition plainTemplate (template : string) : bool :=
  forallb (fun c => negb (Ascii.eqb c "$")) (list_ascii_of_string template).

(** A tracer whose spans start out not ended, behind a handle that
    answers [isEnded]. *)
Definition startsActiveSpans (T : Otel.Tracer) : Prop :=
  forall name options parent,
    Otel.ended (Otel.startSpan T name options parent) = false
    /\ Otel.implementsIsEnded (Otel.startSpan T name options parent) = true.

(** Two states of one span object: same span context, name and kind. *)
Definition sameSpan (sp sp' : Otel.Span) : Prop :=
  Otel.spanContext sp' = Otel.spanContext sp
  /\ Otel.name sp' = Otel.name sp
  /\ Otel.kind sp' = Otel.kind sp.

(** The callbacks that still find the span on the event: those up to
    and including the first [afterResponse]. *)
Fixpoint untilCleanup (cbs : list Callback) : nat :=
  match cbs with
  | [] => 0
  | AfterResponse :: _ => 1
  | _ :: cbs' => S (untilCleanup cbs')
  end.

(** A tracer like [childTracer] whose span objects have no [isEnded]
    method. *)
Definition bareTracer (newSpanId : string) : Otel.Tracer :=
  {| Otel.startSpan := fun name options parent =>
       Otel.mkSpan
         (Otel.mkSpanContext (Otel.traceId parent) newSpanId (Otel.traceFlags parent) false)
         (Some (Otel.spanId parent)) name (Otel.optKind options)
         (Otel.optAttributes options) (Otel.mkStatus Otel.UNSET None) [] 0 false |}.

(* ===================================================================== *)
(** * Properties *)
(* ===================================================================== *)

(** ** Splitting and joining *)

Lemma split_nonempty sep s : JS.split sep s <> [].
Proof.
  destruct s as [|c s]; simpl; [discriminate|].
  destruct (Ascii.eqb c sep); [discriminate|].
  destruct (JS.split sep s); discriminate.
Qed.

Lemma join_cons sep p ps :
  ps <> [] -> JS.join sep (p :: ps) = p +:+ sep +:+ JS.join sep ps.
Proof. destruct ps; [congruence | reflexivity]. Qed.

Lemma join_cons_char sep c p ps :
  JS.join sep (String c p :: ps) = String c (JS.join sep (p :: ps)).
Proof. destruct ps; reflexivity. Qed.

(** [split] loses nothing: joining the parts with the separator gives
    the string back. *)
Lemma join_split sep s : JS.join (String sep EmptyString) (JS.split sep s) = s.
Proof.
  induction s as [|c s IH]; simpl; [reflexivity|].
  destruct (Ascii.eqb_spec c sep) as [->|Hne].
  - rewrite join_cons by apply split_nonempty. simpl. now rewrite IH.
  - pose proof (split_nonempty sep s) as Hs.
    destruct (JS.split sep s) as [|p ps]; [congruence|].
    rewrite join_cons_char. now rewrite IH.
Qed.

Lemma split_empty_parts sep s : JS.truthy s = false -> JS.split sep s = [EmptyString].
Proof.
  unfold JS.truthy. destruct s; [reflexivity | discriminate].
Qed.

(** ** The remote span context *)

Lemma remoteSpanContext_four_parts h v t p f :
  JS.split "-" h = [v; t; p; f] ->
  remoteSpanContext (Some h) = Some (Otel.mkSpanContext t p (JS.parseInt16 f) true).
Proof.
  intros Hs. unfold remoteSpanContext.
  destruct (JS.truthy h) eqn:Ht; simpl.
  - now rewrite Hs.
  - apply (split_empty_parts "-") in Ht. congruence.
Qed.

Lemma remoteSpanContext_inv h ctx :
  remoteSpanContext (Some h) = Some ctx ->
  exists v f, JS.split "-" h = [v; Otel.traceId ctx; Otel.spanId ctx; f]
              /\ Otel.traceFlags ctx = JS.parseInt16 f /\ Otel.isRemote ctx = true.
Proof.
  unfold remoteSpanContext. destruct (JS.truthy h); simpl; [|discriminate].
  destruct (JS.split "-" h) as [|v [|t [|p [|f [|]]]]]; try discriminate.
  intros [= <-]. now exists v, f.
Qed.

Lemma remoteSpanContext_other_parts h :
  List.length (JS.split "-" h) <> 4%nat -> remoteSpanContext (Some h) = None.
Proof.
  intros Hlen. unfold remoteSpanContext. destruct (JS.truthy h); simpl; [|reflexivity].
  destruct (JS.split "-" h) as [|v [|t [|p [|f [|]]]]]; try reflexivity.
  now contradict Hlen.
Qed.

Lemma request_with_context engine tracer config now event h ctx :
  headers (req event) !! "traceparent" = Some h ->
  remoteSpanContext (Some h) = Some ctx ->
  request engine tracer config now event =
  setSpan event
    (Some (Otel.startSpan tracer
             (method event +:+ " " +:+ normalizePath engine config (requestPath event))
             (Otel.mkSpanOptions Otel.SERVER (requestAttributes engine config now event))
             ctx)).
Proof. intros Hh Hc. unfold request. now rewrite Hh, Hc. Qed.

Lemma request_without_context engine tracer config now event :
  remoteSpanContext (headers (req event) !! "traceparent") = None ->
  request engine tracer config now event = event.
Proof. intros Hc. unfold request. now rewrite Hc. Qed.

Lemma childTracer_joinsParentTrace newSpanId :
  Otel.joinsParentTrace (Otel.childTracer newSpanId).
Proof. intros name options parent. reflexivity. Qed.

Lemma isLowerHex_hexDigit c : isLowerHex c = true -> JS.hexDigit c <> None.
Proof. destruct c as [[] [] [] [] [] [] [] []]; vm_compute; congruence. Qed.

(** A well-formed id is one the API finds valid. *)
Lemma wellFormedId_isValidId len id :
  wellFormedId len id = true -> Otel.isValidId len id = true.
Proof.
  unfold wellFormedId, Otel.isValidId.
  rewrite !andb_true_iff. intros [[Hl Hh] Hz]. repeat split; [exact Hl| |exact Hz].
  rewrite forallb_forall in *. intros c Hc. specialize (Hh c Hc).
  apply isLowerHex_hexDigit in Hh. now destruct (JS.hexDigit c).
Qed.

Lemma sdkTracer_continuesValidTrace newTraceId newSpanId :
  continuesValidTrace (Otel.sdkTracer newTraceId newSpanId).
Proof.
  intros name options parent Ht Hs. simpl.
  unfold Otel.isSpanContextValid, Otel.isValidTraceId, Otel.isValidSpanId.
  now rewrite (wellFormedId_isValidId _ _ Ht), (wellFormedId_isValidId _ _ Hs).
Qed.

(** C1, as the spec states it, fails: the hook accepts the header
    [00-XYZ-12-zz] and hands its fields to the tracer unchecked, the
    SDK's tracer finds the parent context invalid and starts a trace
    of its own, and the span on the event reports the generated trace
    id, not the header's [XYZ]. *)
Lemma unchecked_ids_start_a_new_trace :
  (remoteSpanContext (Some "00-XYZ-12-zz")
   = Some (Otel.mkSpanContext "XYZ" "12" JS.NaN true)
   /\ Otel.isSpanContextValid (Otel.mkSpanContext "XYZ" "12" JS.NaN true) = false
   /\ exists sp,
        span (context (request RegExp.reference exampleSdkTracer unconfigured exampleNow
                               (exampleEvent {[ "traceparent" := "00-XYZ-12-zz" ]})))
        = Some sp
        /\ Otel.traceId (Otel.spanContext sp) = "4bf92f3577b34da6a3ce929d0e0e4736"
        /\ Otel.traceId (Otel.spanContext sp) <> "XYZ")
  /\ ~ (forall h version traceId parentSpanId traceFlags,
          JS.split "-" h = [version; traceId; parentSpanId; traceFlags] ->
          exists sp,
            span (context (request RegExp.reference exampleSdkTracer unconfigured exampleNow
                                   (exampleEvent {[ "traceparent" := h ]})))
            = Some sp
            /\ Otel.traceId (Otel.spanContext sp) = traceId).
Proof.
  split.
  - split; [reflexivity|]. split; [reflexivity|].
    eexists. split; [reflexivity|]. split; [reflexivity | discriminate].
  - intros H.
    destruct (H "00-XYZ-12-zz" "00" "XYZ" "12" "zz" eq_refl) as (sp & Hsp & Ht).
    vm_compute in Hsp. injection Hsp as <-. discriminate Ht.
Qed.

(** C1, amended.  When the header splits into four parts and its
    second and third field are well-formed ids (32, respectively 16,
    lowercase hex characters, not all zero), the span stored on the
    event has the header's second field as its trace id, for every
    tracer that continues the trace of such a parent context, as the
    SDK's does.
    For the header
    00-909345e985cb1d64cab2231a9fd2459d-fa583390dc4a57f0-01 that trace
    id is 909345e985cb1d64cab2231a9fd2459d. *)
Theorem request_span_has_incoming_traceId
        (engine : RegExp.Engine) (tracer : Otel.Tracer) (config : PathReplace)
        (now : string) (event : H3Event) :
  continuesValidTrace tracer ->
  (forall h version traceId parentSpanId traceFlags,
      headers (req event) !! "traceparent" = Some h ->
      JS.split "-" h = [version; traceId; parentSpanId; traceFlags] ->
      wellFormedId 32 traceId = true ->
      wellFormedId 16 parentSpanId = true ->
      exists sp,
        span (context (request engine tracer config now event)) = Some sp
        /\ Otel.traceId (Otel.spanContext sp) = traceId)
  /\ (headers (req event) !! "traceparent" = Some exampleTraceparent ->
      exists sp,
        span (context (request engine tracer config now event)) = Some sp
        /\ Otel.traceId (Otel.spanContext sp) = "909345e985cb1d64cab2231a9fd2459d").
Proof.
  intros Hvalid.
  assert (Hgen : forall h version traceId parentSpanId traceFlags,
      headers (req event) !! "traceparent" = Some h ->
      JS.split "-" h = [version; traceId; parentSpanId; traceFlags] ->
      wellFormedId 32 traceId = true ->
      wellFormedId 16 parentSpanId = true ->
      exists sp,
        span (context (request engine tracer config now event)) = Some sp
        /\ Otel.traceId (Otel.spanContext sp) = traceId).
  { intros h v t p f Hh Hs Ht Hp.
    rewrite (request_with_context _ _ _ _ _ _ _ Hh (remoteSpanContext_four_parts _ _ _ _ _ Hs)).
    eexists. split; [reflexivity|]. simpl. now rewrite Hvalid. }
  split; [exact Hgen|].
  intros Hh. eapply Hgen; [exact Hh | reflexivity | reflexivity | reflexivity].
Qed.

Lemma request_span_has_incoming_traceId_witness :
  exists sp,
    span (context (request RegExp.reference exampleSdkTracer unconfigured exampleNow
                           (exampleEvent {[ "traceparent" := exampleTraceparent ]}))) = Some sp
    /\ Otel.traceId (Otel.spanContext sp) = "909345e985cb1d64cab2231a9fd2459d".
Proof.
  apply (request_span_has_incoming_traceId RegExp.reference exampleSdkTracer unconfigured
           exampleNow (exampleEvent {[ "traceparent" := exampleTraceparent ]})).
  - apply sdkTracer_continuesValidTrace.
  - reflexivity.
Defined.

(** C2, as the spec states it, fails: the header [00-XYZ-12-zz] has
    four parts, none of its fields has the length or the characters the
    spec asks for, and yet the hook builds a remote context from it and
    starts a span. *)
Lemma malformed_fields_still_start_a_span :
  (JS.split "-" "00-XYZ-12-zz" = ["00"; "XYZ"; "12"; "zz"]
   /\ specFieldsValid "XYZ" "12" "zz" = false
   /\ remoteSpanContext (Some "00-XYZ-12-zz")
      = Some (Otel.mkSpanContext "XYZ" "12" JS.NaN true)
   /\ spanState (request RegExp.reference exampleTracer unconfigured exampleNow
                         (exampleEvent {[ "traceparent" := "00-XYZ-12-zz" ]})) = Active)
  /\ ~ (forall h version traceId parentSpanId traceFlags,
          JS.split "-" h = [version; traceId; parentSpanId; traceFlags] ->
          specFieldsValid traceId parentSpanId traceFlags = false ->
          remoteSpanContext (Some h) = None).
Proof.
  split.
  - repeat split; vm_compute; reflexivity.
  - intros H. specialize (H "00-XYZ-12-zz" "00" "XYZ" "12" "zz" eq_refl eq_refl).
    vm_compute in H. discriminate.
Qed.

(** C2, amended.  A header that splits into four parts is accepted
    whatever its fields look like: fields 2 and 3 become the trace id
    and the parent span id as they are, the flags are
    [parseInt(field 4, 16)], the context is marked remote, and a span
    is started under that context. *)
Theorem four_parts_are_accepted_unchecked
        (h version traceId parentSpanId traceFlags : string) :
  JS.split "-" h = [version; traceId; parentSpanId; traceFlags] ->
  remoteSpanContext (Some h)
  = Some (Otel.mkSpanContext traceId parentSpanId (JS.parseInt16 traceFlags) true)
  /\ forall engine tracer config now event,
      headers (req event) !! "traceparent" = Some h ->
      span (context (request engine tracer config now event))
      = Some (Otel.startSpan tracer
                (method event +:+ " " +:+ normalizePath engine config (requestPath event))
                (Otel.mkSpanOptions Otel.SERVER (requestAttributes engine config now event))
                (Otel.mkSpanContext traceId parentSpanId (JS.parseInt16 traceFlags) true)).
Proof.
  intros Hs. pose proof (remoteSpanContext_four_parts _ _ _ _ _ Hs) as Hc.
  split; [exact Hc|].
  intros engine tracer config now event Hh.
  now rewrite (request_with_context _ _ _ _ _ _ _ Hh Hc).
Qed.

Lemma four_parts_are_accepted_unchecked_witness :
  remoteSpanContext (Some "00-XYZ-12-zz") = Some (Otel.mkSpanContext "XYZ" "12" JS.NaN true).
Proof.
  apply (four_parts_are_accepted_unchecked "00-XYZ-12-zz" "00" "XYZ" "12" "zz").
  reflexivity.
Defined.

(** ** Requests without a usable header *)

Lemma deliver_without_span cb event exporter :
  span (context event) = None -> deliver cb (event, exporter) = (event, exporter).
Proof.
  intros Hn. destruct cb; simpl.
  - unfold beforeResponse. now rewrite Hn.
  - now rewrite Hn.
  - unfold afterResponse. now rewrite Hn.
Qed.

Lemma deliverAll_without_span cbs event exporter :
  span (context event) = None -> deliverAll cbs (event, exporter) = (event, exporter).
Proof.
  intros Hn. induction cbs as [|cb cbs IH]; [reflexivity|].
  unfold deliverAll in *. simpl fold_left. now rewrite deliver_without_span.
Qed.

(** C4.  A request whose [traceparent] header is missing, or does not
    split into four parts, gets no remote context and no span: the
    [request] hook returns the event as it was, and every later
    callback, in any order, leaves the event and the exporter
    untouched. *)
Theorem unusable_header_starts_no_span
        (engine : RegExp.Engine) (tracer : Otel.Tracer) (config : PathReplace)
        (now : string) (event : H3Event) :
  span (context event) = None ->
  (headers (req event) !! "traceparent" = None
   \/ exists h, headers (req event) !! "traceparent" = Some h
                /\ List.length (JS.split "-" h) <> 4%nat) ->
  remoteSpanContext (headers (req event) !! "traceparent") = None
  /\ request engine tracer config now event = event
  /\ spanState (request engine tracer config now event) = NoSpan
  /\ forall exporter,
      beforeResponse (request engine tracer config now event) exporter = (event, exporter)
      /\ (forall err,
             error err (Some (request engine tracer config now event)) exporter
             = (Some event, exporter))
      /\ afterResponse (request engine tracer config now event) exporter = (event, exporter)
      /\ forall cbs,
          deliverAll cbs (request engine tracer config now event, exporter)
          = (event, exporter).
Proof.
  intros Hn Hh.
  assert (Hc : remoteSpanContext (headers (req event) !! "traceparent") = None).
  { destruct Hh as [-> | (h & -> & Hlen)]; [reflexivity|].
    now apply remoteSpanContext_other_parts. }
  rewrite (request_without_context _ _ _ _ _ Hc).
  split; [exact Hc|]. split; [reflexivity|].
  split; [unfold spanState; now rewrite Hn|].
  intros exporter. repeat split.
  - unfold beforeResponse. now rewrite Hn.
  - intros err. simpl. now rewrite Hn.
  - unfold afterResponse. now rewrite Hn.
  - intros cbs. now apply deliverAll_without_span.
Qed.

Lemma unusable_header_starts_no_span_witness :
  remoteSpanContext (headers (req (exampleEvent {[ "traceparent" := "00-abc" ]}))
                     !! "traceparent") = None
  /\ request RegExp.reference exampleTracer unconfigured exampleNow
             (exampleEvent {[ "traceparent" := "00-abc" ]})
     = exampleEvent {[ "traceparent" := "00-abc" ]}.
Proof.
  pose proof (unusable_header_starts_no_span RegExp.reference exampleTracer unconfigured
                exampleNow (exampleEvent {[ "traceparent" := "00-abc" ]})) as H.
  destruct H as (H1 & H2 & _).
  - reflexivity.
  - right. exists "00-abc". split; [reflexivity | vm_compute; discriminate].
  - split; [exact H1 | exact H2].
Defined.

(** ** The span object *)

Lemma ended_false_calls sp : Otel.ended sp = false -> Otel.endCalls sp = 0%nat.
Proof. unfold Otel.ended. destruct (Otel.endCalls sp); [reflexivity | discriminate]. Qed.

Lemma ended_true_calls sp :
  Otel.ended sp = true -> exists n, Otel.endCalls sp = S n.
Proof. unfold Otel.ended. destruct (Otel.endCalls sp) as [|n]; [discriminate | now exists n]. Qed.

Lemma ended_finish sp : Otel.ended (Otel.finish sp) = true.
Proof. reflexivity. Qed.

(** A span that has ended records nothing more. *)
Lemma setAttributes_ended attrs sp :
  Otel.ended sp = true -> Otel.setAttributes attrs sp = sp.
Proof. intros He. unfold Otel.setAttributes. now rewrite He. Qed.

Lemma setStatus_ended st sp :
  Otel.ended sp = true -> Otel.setStatus st sp = sp.
Proof. intros He. unfold Otel.setStatus. now rewrite He. Qed.

Lemma recordException_ended e sp :
  Otel.ended sp = true -> Otel.recordException e sp = sp.
Proof. intros He. unfold Otel.recordException. now rewrite He. Qed.

(** What the calls never touch. *)
Lemma setAttributes_frame attrs sp :
  Otel.spanContext (Otel.setAttributes attrs sp) = Otel.spanContext sp
  /\ Otel.name (Otel.setAttributes attrs sp) = Otel.name sp
  /\ Otel.kind (Otel.setAttributes attrs sp) = Otel.kind sp
  /\ Otel.endCalls (Otel.setAttributes attrs sp) = Otel.endCalls sp
  /\ Otel.implementsIsEnded (Otel.setAttributes attrs sp) = Otel.implementsIsEnded sp.
Proof. unfold Otel.setAttributes. destruct (Otel.ended sp); now repeat split. Qed.

Lemma setStatus_frame st sp :
  Otel.spanContext (Otel.setStatus st sp) = Otel.spanContext sp
  /\ Otel.name (Otel.setStatus st sp) = Otel.name sp
  /\ Otel.kind (Otel.setStatus st sp) = Otel.kind sp
  /\ Otel.endCalls (Otel.setStatus st sp) = Otel.endCalls sp
  /\ Otel.implementsIsEnded (Otel.setStatus st sp) = Otel.implementsIsEnded sp.
Proof. unfold Otel.setStatus. destruct (Otel.ended sp); now repeat split. Qed.

Lemma recordException_frame e sp :
  Otel.spanContext (Otel.recordException e sp) = Otel.spanContext sp
  /\ Otel.name (Otel.recordException e sp) = Otel.name sp
  /\ Otel.kind (Otel.recordException e sp) = Otel.kind sp
  /\ Otel.endCalls (Otel.recordException e sp) = Otel.endCalls sp
  /\ Otel.implementsIsEnded (Otel.recordException e sp) = Otel.implementsIsEnded sp.
Proof. unfold Otel.recordException. destruct (Otel.ended sp); now repeat split. Qed.

(** Case analysis on a span by the number of calls of [end()] it has
    seen, so that the calls on it compute. *)
Ltac span_active sp He :=
  destruct sp as [? ? ? ? ? ? ? [|?] ?]; cbn in He; [|discriminate He].

Ltac span_ended sp He :=
  destruct sp as [? ? ? ? ? ? ? [|?] ?]; cbn in He; [discriminate He|].

(** ** Finishing the span *)

Lemma isEnded_of_ended sp :
  Otel.ended sp = true -> Otel.implementsIsEnded sp = true ->
  Otel.truthy (Otel.isEnded sp) = true.
Proof. intros He Hi. unfold Otel.isEnded. now rewrite Hi, He. Qed.

Lemma isEnded_of_active sp :
  Otel.ended sp = false -> Otel.truthy (Otel.isEnded sp) = false.
Proof. intros He. unfold Otel.isEnded. rewrite He. now destruct (Otel.implementsIsEnded sp). Qed.

Lemma isEnded_missing sp :
  Otel.implementsIsEnded sp = false -> Otel.truthy (Otel.isEnded sp) = false.
Proof. intros Hi. unfold Otel.isEnded. now rewrite Hi. Qed.

Lemma beforeResponse_ended event exporter sp :
  span (context event) = Some sp ->
  Otel.ended sp = true -> Otel.implementsIsEnded sp = true ->
  beforeResponse event exporter = (event, exporter).
Proof.
  intros Hs He Hi. unfold beforeResponse. now rewrite Hs, isEnded_of_ended.
Qed.

Lemma error_ended err event exporter sp :
  span (context event) = Some sp ->
  Otel.ended sp = true -> Otel.implementsIsEnded sp = true ->
  error err (Some event) exporter = (Some event, exporter).
Proof.
  intros Hs He Hi. simpl. now rewrite Hs, isEnded_of_ended.
Qed.

Lemma afterResponse_ended event exporter sp :
  span (context event) = Some sp ->
  Otel.ended sp = true -> Otel.implementsIsEnded sp = true ->
  afterResponse event exporter = (setSpan event None, exporter).
Proof.
  intros Hs He Hi. unfold afterResponse. now rewrite Hs, isEnded_of_ended.
Qed.

Lemma beforeResponse_active event exporter sp :
  span (context event) = Some sp -> Otel.ended sp = false ->
  beforeResponse event exporter
  = let sp' := Otel.finish
                 (Otel.setStatus (responseStatus (responseStatusCode event))
                    (Otel.setAttributes (responseAttributes event) sp)) in
    (setSpan event (Some sp'), exporter ++ [sp']).
Proof. intros Hs He. unfold beforeResponse. now rewrite Hs, isEnded_of_active. Qed.

Lemma error_active err event exporter sp :
  span (context event) = Some sp -> Otel.ended sp = false ->
  error err (Some event) exporter
  = let sp' := Otel.finish
                 (Otel.setStatus
                    (Otel.mkStatus Otel.ERROR (Some (Otel.exceptionMessage err)))
                    (Otel.recordException err sp)) in
    (Some (setSpan event (Some sp')), exporter ++ [sp']).
Proof. intros Hs He. simpl. now rewrite Hs, isEnded_of_active. Qed.

Lemma afterResponse_active event exporter sp :
  span (context event) = Some sp -> Otel.ended sp = false ->
  afterResponse event exporter = (setSpan event None, exporter ++ [Otel.finish sp]).
Proof. intros Hs He. unfold afterResponse. now rewrite Hs, isEnded_of_active. Qed.

(** No callback finishes a span twice: once the event holds no span,
    or an ended one whose [isEnded] answers, the exporter hears nothing
    more about it. *)
Lemma deliver_settled cb event exporter :
  settled event ->
  settled (fst (deliver cb (event, exporter)))
  /\ snd (deliver cb (event, exporter)) = exporter.
Proof.
  unfold settled. intros Hs.
  destruct (span (context event)) as [sp|] eqn:Hsp.
  - destruct Hs as [He Hi]. destruct cb; simpl.
    + rewrite (beforeResponse_ended _ _ _ Hsp He Hi). simpl. now rewrite Hsp.
    + rewrite Hsp, isEnded_of_ended by assumption. simpl. now rewrite Hsp.
    + now rewrite (afterResponse_ended _ _ _ Hsp He Hi).
  - rewrite deliver_without_span by assumption. simpl. now rewrite Hsp.
Qed.

Lemma deliverAll_settled cbs event exporter :
  settled event -> snd (deliverAll cbs (event, exporter)) = exporter.
Proof.
  revert event exporter. induction cbs as [|cb cbs IH]; intros event exporter Hs;
    [reflexivity|].
  unfold deliverAll in *. simpl fold_left.
  destruct (deliver_settled cb event exporter Hs) as [Hs' He'].
  destruct (deliver cb (event, exporter)) as [event' exporter'] eqn:Hd.
  simpl in *. subst exporter'. now apply IH.
Qed.

Lemma deliver_active cb event exporter sp :
  span (context event) = Some sp ->
  Otel.ended sp = false -> Otel.implementsIsEnded sp = true ->
  exists sp', Otel.ended sp' = true
              /\ snd (deliver cb (event, exporter)) = exporter ++ [sp']
              /\ settled (fst (deliver cb (event, exporter))).
Proof.
  intros Hsp He Hi. pose proof He as He'. span_active sp He'. cbn in Hi. subst.
  unfold settled. destruct cb; simpl.
  - rewrite (beforeResponse_active _ _ _ Hsp He). simpl.
    eexists. split; [|split; [reflexivity|]]; [reflexivity | now split].
  - rewrite Hsp, isEnded_of_active by assumption. simpl.
    eexists. split; [|split; [reflexivity|]]; [reflexivity | now split].
  - rewrite (afterResponse_active _ _ _ Hsp He). simpl.
    eexists. split; [|split; [reflexivity|]]; [reflexivity | exact I].
Qed.

(** *** Callbacks on a span that has ended *)

Lemma finalizeEvents_app l1 l2 :
  Otel.finalizeEvents (l1 ++ l2) = Otel.finalizeEvents l1 ++ Otel.finalizeEvents l2.
Proof. apply List.filter_app. Qed.

Lemma setSpan_same event sp : span (context event) = Some sp -> setSpan event (Some sp) = event.
Proof. destruct event as [m p rq rs [s]]. simpl. now intros ->. Qed.

Lemma sameState_refl sp : Otel.sameState sp sp.
Proof. now repeat split. Qed.

(** One callback on a span that has ended: whatever the handle can
    do, nothing is recorded and there is no finalize event; the calls
    of [end()] that a handle without [isEnded] lets through are later
    calls on the span. *)
Lemma deliver_on_ended cb event calls sp :
  span (context event) = Some sp -> Otel.ended sp = true ->
  exists added,
    snd (deliver cb (event, calls)) = calls ++ added
    /\ Otel.finalizeEvents added = []
    /\ Forall (Otel.sameState sp) added
    /\ (Otel.implementsIsEnded sp = true -> added = [])
    /\ match span (context (fst (deliver cb (event, calls)))) with
       | Some sp' => cb <> AfterResponse /\ Otel.sameState sp sp'
       | None => cb = AfterResponse
       end.
Proof.
  intros Hsp He. span_ended sp He.
  match goal with
  | H : span _ = Some (Otel.mkSpan _ _ _ _ _ _ _ _ ?b) |- _ => destruct b
  end;
    destruct cb; simpl; unfold beforeResponse, afterResponse; rewrite Hsp; simpl;
    try rewrite Hsp;
    first [ exists []; rewrite app_nil_r;
            split; [reflexivity|]; split; [reflexivity|]; split; [constructor|];
            split; [reflexivity|];
            first [ reflexivity | split; [discriminate | apply sameState_refl] ]
          | eexists [_];
            split; [reflexivity|]; split; [reflexivity|];
            split; [repeat constructor|]; split; [discriminate|];
            first [ reflexivity | split; [discriminate | now repeat split] ] ].
Qed.

Lemma deliver_finished cb event calls :
  finished event ->
  finished (fst (deliver cb (event, calls)))
  /\ Otel.finalizeEvents (snd (deliver cb (event, calls))) = Otel.finalizeEvents calls.
Proof.
  unfold finished. intros Hf.
  destruct (span (context event)) as [sp|] eqn:Hsp.
  - destruct (deliver_on_ended cb event calls sp Hsp Hf)
      as (added & Hx & Hfin & _ & _ & Hnext).
    rewrite Hx, finalizeEvents_app, Hfin, app_nil_r. split; [|reflexivity].
    destruct (span (context (fst (deliver cb (event, calls))))) as [sp'|]; [|exact I].
    destruct Hnext as (_ & _ & _ & _ & _ & _ & _ & _ & He' & _). now rewrite He'.
  - rewrite deliver_without_span by exact Hsp. simpl. now rewrite Hsp.
Qed.

Lemma deliverAll_finished cbs event calls :
  finished event ->
  Otel.finalizeEvents (snd (deliverAll cbs (event, calls))) = Otel.finalizeEvents calls.
Proof.
  revert event calls. induction cbs as [|cb cbs IH]; intros event calls Hf; [reflexivity|].
  unfold deliverAll in *. simpl fold_left.
  destruct (deliver_finished cb event calls Hf) as [Hf' Hx].
  destruct (deliver cb (event, calls)) as [event' calls'] eqn:Hd.
  simpl in *. rewrite <- Hx. now apply IH.
Qed.

(** The first callback on an active span, whatever the handle can do:
    one call of [end()], which is the finalize event of the span. *)
Lemma deliver_first cb event calls sp :
  span (context event) = Some sp -> Otel.ended sp = false ->
  exists sp', Otel.ended sp' = true
              /\ snd (deliver cb (event, calls)) = calls ++ [sp']
              /\ Otel.finalizeEvents [sp'] = [sp']
              /\ finished (fst (deliver cb (event, calls))).
Proof.
  intros Hsp He. pose proof He as He'. span_active sp He'.
  unfold finished. destruct cb; simpl.
  - rewrite (beforeResponse_active _ _ _ Hsp He). simpl.
    eexists. split; [|split; [reflexivity|]]; [reflexivity | now split].
  - rewrite Hsp, isEnded_of_active by assumption. simpl.
    eexists. split; [|split; [reflexivity|]]; [reflexivity | now split].
  - rewrite (afterResponse_active _ _ _ Hsp He). simpl.
    eexists. split; [|split; [reflexivity|]]; [reflexivity | now split].
Qed.

(** C3.  Once the span of a request has ended, every callback leaves
    what the span has recorded as it is and causes no finalize event,
    whether the handle answers [isEnded], so that the hooks return
    before they touch the span, or not, so that the calls reach the
    span, which takes nothing more and ignores a second [end()]; no
    sequence of callbacks changes the finalize events.  Starting from
    an active span, every non-empty sequence of callbacks, so every
    interleaving of [error] and [beforeResponse], gives exactly one
    finalize event. *)
Theorem ended_span_is_never_finished_again
        (event : H3Event) (calls : list Otel.Span) (sp : Otel.Span) :
  span (context event) = Some sp ->
  (Otel.ended sp = true ->
     (forall cb,
         exists added,
           snd (deliver cb (event, calls)) = calls ++ added
           /\ Otel.finalizeEvents added = []
           /\ Forall (Otel.sameState sp) added
           /\ (Otel.implementsIsEnded sp = true -> added = [])
           /\ match span (context (fst (deliver cb (event, calls)))) with
              | Some sp' => cb <> AfterResponse /\ Otel.sameState sp sp'
              | None => cb = AfterResponse
              end)
     /\ forall cbs,
         Otel.finalizeEvents (snd (deliverAll cbs (event, calls)))
         = Otel.finalizeEvents calls)
  /\ (Otel.ended sp = false ->
      forall cb cbs,
      exists sp', Otel.ended sp' = true
                  /\ Otel.finalizeEvents (snd (deliverAll (cb :: cbs) (event, calls)))
                     = Otel.finalizeEvents calls ++ [sp']).
Proof.
  intros Hsp. split; intros He.
  - split; [intros cb; now apply deliver_on_ended|].
    intros cbs. apply deliverAll_finished. unfold finished. now rewrite Hsp.
  - intros cb cbs.
    destruct (deliver_first cb event calls sp Hsp He) as (sp' & He' & Hx & Hone & Hf).
    exists sp'. split; [exact He'|].
    unfold deliverAll. simpl fold_left.
    destruct (deliver cb (event, calls)) as [event' calls'] eqn:Hd.
    simpl in Hx, Hf. subst calls'.
    pose proof (deliverAll_finished cbs event' (calls ++ [sp']) Hf) as Hall.
    unfold deliverAll in Hall. now rewrite Hall, finalizeEvents_app, Hone.
Qed.

Lemma ended_span_is_never_finished_again_witness :
  (exists sp', Otel.ended sp' = true
               /\ Otel.finalizeEvents
                    (snd (deliverAll [OnError boom; BeforeResponse; AfterResponse]
                                     (exampleSdkEvent, [])))
                  = Otel.finalizeEvents [] ++ [sp'])
  /\ (exists sp', Otel.ended sp' = true
                  /\ Otel.finalizeEvents
                       (snd (deliverAll [BeforeResponse; OnError boom; AfterResponse]
                                        (exampleSdkEvent, [])))
                     = Otel.finalizeEvents [] ++ [sp'])
  /\ Otel.finalizeEvents
       (snd (deliverAll [BeforeResponse; AfterResponse]
                        (fst exampleEndedEvent, snd exampleEndedEvent)))
     = Otel.finalizeEvents (snd exampleEndedEvent).
Proof.
  edestruct (ended_span_is_never_finished_again exampleSdkEvent []) as [_ H].
  - reflexivity.
  - split; [|split]; [apply (H eq_refl) | apply (H eq_refl) |].
    edestruct (ended_span_is_never_finished_again
                 (fst exampleEndedEvent) (snd exampleEndedEvent)) as [H' _].
    + reflexivity.
    + destruct (H' eq_refl) as [_ Hall]. apply Hall.
Defined.

(** The same on the SDK's span once [error] has ended it: the later
    [beforeResponse] and [afterResponse] call [end()] again, which
    the log shows, and the finalize events stay the one. *)
Lemma second_end_is_ignored :
  List.length (snd (deliverAll [OnError boom; BeforeResponse; AfterResponse]
                               (exampleSdkEvent, []))) = 3%nat
  /\ List.length (Otel.finalizeEvents
                    (snd (deliverAll [OnError boom; BeforeResponse; AfterResponse]
                                     (exampleSdkEvent, [])))) = 1%nat
  /\ (forall sp', span (context (fst (deliver BeforeResponse
                                        (deliver (OnError boom) (exampleSdkEvent, []))))) = Some sp' ->
                  Otel.status sp' = Otel.mkStatus Otel.ERROR (Some "boom")
                  /\ Otel.attributes sp' !! "http.response.status_code" = None).
Proof.
  split; [reflexivity|]. split; [reflexivity|].
  intros sp' H. vm_compute in H. injection H as <-. split; reflexivity.
Qed.

(** The [error] hook on an active span: the fault is recorded, the
    status is ERROR with the fault's message, and the span is ended
    and handed to the exporter. *)
Lemma error_records_the_fault err event exporter sp :
  span (context event) = Some sp -> Otel.ended sp = false ->
  exists sp',
    error err (Some event) exporter = (Some (setSpan event (Some sp')), exporter ++ [sp'])
    /\ Otel.exceptions sp' = Otel.exceptions sp ++ [err]
    /\ Otel.status sp' = Otel.mkStatus Otel.ERROR (Some (Otel.exceptionMessage err))
    /\ Otel.attributes sp' = Otel.attributes sp
    /\ Otel.ended sp' = true.
Proof.
  intros Hsp He. rewrite (error_active _ _ _ _ Hsp He). cbv zeta.
  span_active sp He.
  eexists. split; [reflexivity|]. now repeat split.
Qed.

(** ** The [beforeResponse] hook *)

Lemma responseAttributes_status_code event :
  responseAttributes event !! "http.response.status_code"
  = Some (Otel.ANumber (responseStatusCode event)).
Proof. unfold responseAttributes. now simplify_map_eq. Qed.

Lemma responseAttributes_content_type event :
  responseAttributes event !! "http.response.header.content-type"
  = Some (Otel.ofHeader (responseHeaders (res event) !! "content-type")).
Proof. unfold responseAttributes. now simplify_map_eq. Qed.

Lemma responseAttributes_content_length event :
  responseAttributes event !! "http.response.header.content-length"
  = Some (Otel.ofHeader (responseHeaders (res event) !! "content-length")).
Proof. unfold responseAttributes. now simplify_map_eq. Qed.

Lemma responseAttributes_other event key :
  key <> "http.response.status_code" ->
  key <> "http.response.header.content-type" ->
  key <> "http.response.header.content-length" ->
  responseAttributes event !! key = None.
Proof. intros H1 H2 H3. unfold responseAttributes. now simplify_map_eq. Qed.

Lemma responseStatusCode_ge_400 event :
  (400 <= responseStatusCode event)%nat <-> (400 <= statusCode (res event))%nat.
Proof.
  unfold responseStatusCode.
  destruct (Nat.eqb_spec (statusCode (res event)) 0) as [->|]; lia.
Qed.

(** C5.  With an active span on the event, [beforeResponse] records
    the status code of the response (200 when the response has none),
    its content type and its content length (each the header's value,
    or [undefined] when the response has no such header), sets the
    status to ERROR with the message [HTTP <code>] when the status
    code is 400 or more and to OK otherwise, and ends the span, which
    is the span's finalize event; nothing else of the span changes.
    With no span the hook returns at once.  With a span that has
    ended it records nothing and causes no finalize event: the span
    stays as it is, and behind a handle that answers [isEnded] it is
    not even called. *)
Theorem beforeResponse_finishes_the_active_span
        (event : H3Event) (calls : list Otel.Span) :
  (forall sp,
      span (context event) = Some sp -> Otel.ended sp = false ->
      exists sp',
        beforeResponse event calls = (setSpan event (Some sp'), calls ++ [sp'])
        /\ Otel.finalizeEvents [sp'] = [sp']
        /\ (statusCode (res event) <> 0%nat ->
            Otel.attributes sp' !! "http.response.status_code"
            = Some (Otel.ANumber (statusCode (res event))))
        /\ (statusCode (res event) = 0%nat ->
            Otel.attributes sp' !! "http.response.status_code"
            = Some (Otel.ANumber 200))
        /\ (forall contentType,
               responseHeaders (res event) !! "content-type" = Some contentType ->
               Otel.attributes sp' !! "http.response.header.content-type"
               = Some (Otel.AString contentType))
        /\ (responseHeaders (res event) !! "content-type" = None ->
            Otel.attributes sp' !! "http.response.header.content-type"
            = Some Otel.AUndefined)
        /\ (forall contentLength,
               responseHeaders (res event) !! "content-length" = Some contentLength ->
               Otel.attributes sp' !! "http.response.header.content-length"
               = Some (Otel.AString contentLength))
        /\ (responseHeaders (res event) !! "content-length" = None ->
            Otel.attributes sp' !! "http.response.header.content-length"
            = Some Otel.AUndefined)
        /\ (forall key,
               key <> "http.response.status_code" ->
               key <> "http.response.header.content-type" ->
               key <> "http.response.header.content-length" ->
               Otel.attributes sp' !! key = Otel.attributes sp !! key)
        /\ ((400 <= statusCode (res event))%nat ->
            Otel.status sp'
            = Otel.mkStatus Otel.ERROR
                (Some ("HTTP " +:+ JS.numberToString (statusCode (res event)))))
        /\ ((statusCode (res event) < 400)%nat ->
            Otel.status sp' = Otel.mkStatus Otel.OK None)
        /\ Otel.ended sp' = true
        /\ spanState (setSpan event (Some sp')) = Ended
        /\ Otel.spanContext sp' = Otel.spanContext sp
        /\ Otel.name sp' = Otel.name sp
        /\ Otel.exceptions sp' = Otel.exceptions sp)
  /\ (span (context event) = None -> beforeResponse event calls = (event, calls))
  /\ (forall sp,
         span (context event) = Some sp -> Otel.ended sp = true ->
         exists sp' added,
           beforeResponse event calls = (setSpan event (Some sp'), calls ++ added)
           /\ Otel.sameState sp sp'
           /\ Otel.finalizeEvents added = []
           /\ spanState (setSpan event (Some sp')) = Ended
           /\ (Otel.implementsIsEnded sp = true ->
               beforeResponse event calls = (event, calls))).
Proof.
  split; [|split].
  - intros sp Hsp He. rewrite (beforeResponse_active _ _ _ Hsp He). cbv zeta.
    span_active sp He.
    eexists. split; [reflexivity|]. split; [reflexivity|]. cbn.
    split.
    { intros Hne. rewrite (lookup_union_Some_l _ _ _ _ (responseAttributes_status_code event)).
      unfold responseStatusCode.
      destruct (Nat.eqb_spec (statusCode (res event)) 0); [contradiction | reflexivity]. }
    split.
    { intros Hz. rewrite (lookup_union_Some_l _ _ _ _ (responseAttributes_status_code event)).
      unfold responseStatusCode. now rewrite Hz. }
    split.
    { intros v Hv.
      rewrite (lookup_union_Some_l _ _ _ _ (responseAttributes_content_type event)).
      now rewrite Hv. }
    split.
    { intros Hv.
      rewrite (lookup_union_Some_l _ _ _ _ (responseAttributes_content_type event)).
      now rewrite Hv. }
    split.
    { intros v Hv.
      rewrite (lookup_union_Some_l _ _ _ _ (responseAttributes_content_length event)).
      now rewrite Hv. }
    split.
    { intros Hv.
      rewrite (lookup_union_Some_l _ _ _ _ (responseAttributes_content_length event)).
      now rewrite Hv. }
    split.
    { intros key H1 H2 H3. apply lookup_union_r. now apply responseAttributes_other. }
    split.
    { intros Hge. unfold responseStatus.
      pose proof (proj2 (responseStatusCode_ge_400 event) Hge) as Hge'.
      destruct (Nat.leb_spec 400 (responseStatusCode event)); [|lia].
      unfold responseStatusCode.
      destruct (Nat.eqb_spec (statusCode (res event)) 0); [lia | reflexivity]. }
    split.
    { intros Hlt. unfold responseStatus.
      destruct (Nat.leb_spec 400 (responseStatusCode event)) as [Hge|]; [|reflexivity].
      apply responseStatusCode_ge_400 in Hge. lia. }
    repeat split.
  - intros Hn. unfold beforeResponse. now rewrite Hn.
  - intros sp Hsp He.
    destruct (Otel.implementsIsEnded sp) eqn:Hi.
    + rewrite (beforeResponse_ended _ _ _ Hsp He Hi).
      exists sp, []. rewrite app_nil_r, (setSpan_same _ _ Hsp).
      split; [reflexivity|]. split; [apply sameState_refl|]. split; [reflexivity|].
      split; [|reflexivity]. unfold spanState. now rewrite Hsp, He.
    + unfold beforeResponse. rewrite Hsp, (isEnded_missing _ Hi).
      rewrite (setAttributes_ended _ _ He), (setStatus_ended _ _ He). simpl.
      eexists _, [_]. split; [reflexivity|].
      split; [now repeat split|]. split.
      * span_ended sp He. reflexivity.
      * split; [reflexivity | discriminate].
Qed.

Lemma beforeResponse_finishes_the_active_span_witness :
  (exists sp',
      beforeResponse exampleSdkEvent [] = (setSpan exampleSdkEvent (Some sp'), [sp'])
      /\ Otel.attributes sp' !! "http.response.status_code" = Some (Otel.ANumber 200)
      /\ Otel.attributes sp' !! "http.response.header.content-type"
         = Some (Otel.AString "application/json")
      /\ Otel.attributes sp' !! "http.response.header.content-length"
         = Some Otel.AUndefined
      /\ Otel.status sp' = Otel.mkStatus Otel.OK None
      /\ Otel.ended sp' = true)
  /\ (exists sp',
         beforeResponse (withStatusCode 404 exampleTracedEvent) []
         = (setSpan (withStatusCode 404 exampleTracedEvent) (Some sp'), [sp'])
         /\ Otel.status sp' = Otel.mkStatus Otel.ERROR (Some "HTTP 404")
         /\ Otel.ended sp' = true).
Proof.
  split.
  - destruct (beforeResponse_finishes_the_active_span exampleSdkEvent []) as [H _].
    edestruct H as (sp' & H1 & _ & H2 & _ & H3 & _ & _ & H4 & _ & _ & H5 & H6 & _);
      [reflexivity | reflexivity |].
    exists sp'. split; [exact H1|].
    split; [apply H2; vm_compute; discriminate|].
    split; [apply H3; reflexivity|].
    split; [apply H4; reflexivity|].
    split; [|exact H6].
    apply H5. vm_compute. lia.
  - destruct (beforeResponse_finishes_the_active_span
                (withStatusCode 404 exampleTracedEvent) []) as [H _].
    edestruct H as (sp' & H1 & _ & _ & _ & _ & _ & _ & _ & _ & H6 & _ & H8 & _);
      [reflexivity | reflexivity |].
    exists sp'. split; [exact H1|]. split; [|exact H8].
    apply H6. vm_compute. lia.
Defined.

(** ** The [afterResponse] hook *)

(** C6.  After [afterResponse] the event holds no span reference,
    whatever it held before; a span that was still active has been
    ended and handed to the exporter on the way. *)
Theorem afterResponse_clears_the_request
        (event : H3Event) (exporter : list Otel.Span) :
  span (context (fst (afterResponse event exporter))) = None
  /\ spanState (fst (afterResponse event exporter)) = NoSpan
  /\ (forall sp,
         span (context event) = Some sp -> Otel.ended sp = false ->
         afterResponse event exporter = (setSpan event None, exporter ++ [Otel.finish sp])
         /\ Otel.ended (Otel.finish sp) = true)
  /\ (forall cb, spanState (fst (deliver cb (afterResponse event exporter))) = NoSpan).
Proof.
  assert (Hnone : span (context (fst (afterResponse event exporter))) = None).
  { unfold afterResponse. destruct (span (context event)) eqn:Hsp; [reflexivity | exact Hsp]. }
  split; [exact Hnone|].
  split; [unfold spanState; now rewrite Hnone|].
  split.
  - intros sp Hsp He. split; [now apply afterResponse_active | reflexivity].
  - intros cb. destruct (afterResponse event exporter) as [event' exporter'].
    simpl in Hnone. rewrite deliver_without_span by exact Hnone.
    unfold spanState. simpl. now rewrite Hnone.
Qed.

Lemma afterResponse_clears_the_request_witness :
  exists sp',
    afterResponse exampleTracedEvent [] = (setSpan exampleTracedEvent None, [sp'])
    /\ Otel.ended sp' = true
    /\ spanState (fst (afterResponse exampleTracedEvent [])) = NoSpan.
Proof.
  destruct (afterResponse_clears_the_request exampleTracedEvent []) as (_ & Hn & H & _).
  edestruct H as [H1 H2]; [reflexivity | reflexivity |].
  eexists. split; [exact H1|]. split; [exact H2 | exact Hn].
Defined.

(** ** The header and its fields *)

(** C7, as the spec states it, fails: what the hook keeps of a header
    is the remote context, without the version and with the flags as
    a number.  The headers [00-...-0a] and [01-...-0A] have fields as
    the spec asks for them, differ, and give the same context, so
    nothing computed from the context gives every such header back. *)
Lemma distinct_headers_share_a_context :
  (specFieldsValid "909345e985cb1d64cab2231a9fd2459d" "fa583390dc4a57f0" "0a" = true
   /\ specFieldsValid "909345e985cb1d64cab2231a9fd2459d" "fa583390dc4a57f0" "0A" = true
   /\ remoteSpanContext (Some "00-909345e985cb1d64cab2231a9fd2459d-fa583390dc4a57f0-0a")
      = Some (Otel.mkSpanContext "909345e985cb1d64cab2231a9fd2459d" "fa583390dc4a57f0"
                                 (JS.Finite 10) true)
   /\ remoteSpanContext (Some "01-909345e985cb1d64cab2231a9fd2459d-fa583390dc4a57f0-0A")
      = Some (Otel.mkSpanContext "909345e985cb1d64cab2231a9fd2459d" "fa583390dc4a57f0"
                                 (JS.Finite 10) true))
  /\ ~ (exists serialize : Otel.SpanContext -> string,
          forall h version traceId parentSpanId traceFlags ctx,
            JS.split "-" h = [version; traceId; parentSpanId; traceFlags] ->
            specFieldsValid traceId parentSpanId traceFlags = true ->
            remoteSpanContext (Some h) = Some ctx ->
            serialize ctx = h).
Proof.
  split.
  - repeat split; vm_compute; reflexivity.
  - intros (serialize & H).
    pose proof (H "00-909345e985cb1d64cab2231a9fd2459d-fa583390dc4a57f0-0a"
                  "00" "909345e985cb1d64cab2231a9fd2459d" "fa583390dc4a57f0" "0a"
                  _ eq_refl eq_refl eq_refl) as H1.
    pose proof (H "01-909345e985cb1d64cab2231a9fd2459d-fa583390dc4a57f0-0A"
                  "01" "909345e985cb1d64cab2231a9fd2459d" "fa583390dc4a57f0" "0A"
                  _ eq_refl eq_refl eq_refl) as H2.
    vm_compute in H1, H2. rewrite H1 in H2. discriminate H2.
Qed.

(** C7, amended.  For a header the hook accepts, the trace id and the
    parent span id of the remote context are its second and third
    field as they are, the flags of the context are [parseInt] of its
    fourth field, and the four parts of its split, joined with [-] in
    the order version, trace id, parent span id, flags, are the
    header again. *)
Theorem accepted_header_is_its_fields_rejoined (h : string) (ctx : Otel.SpanContext) :
  remoteSpanContext (Some h) = Some ctx ->
  exists version traceFlags,
    JS.split "-" h = [version; Otel.traceId ctx; Otel.spanId ctx; traceFlags]
    /\ Otel.traceFlags ctx = JS.parseInt16 traceFlags
    /\ JS.join "-" [version; Otel.traceId ctx; Otel.spanId ctx; traceFlags] = h
    /\ version +:+ "-" +:+ Otel.traceId ctx +:+ "-" +:+ Otel.spanId ctx
       +:+ "-" +:+ traceFlags = h.
Proof.
  intros Hc. destruct (remoteSpanContext_inv _ _ Hc) as (v & f & Hs & Hf & _).
  exists v, f. split; [exact Hs|]. split; [exact Hf|].
  pose proof (join_split "-" h) as Hj. rewrite Hs in Hj.
  split; exact Hj.
Qed.

Lemma accepted_header_is_its_fields_rejoined_witness :
  exists version traceFlags,
    JS.split "-" exampleTraceparent
    = [version; "909345e985cb1d64cab2231a9fd2459d"; "fa583390dc4a57f0"; traceFlags]
    /\ JS.Finite 1 = JS.parseInt16 traceFlags
    /\ JS.join "-" [version; "909345e985cb1d64cab2231a9fd2459d"; "fa583390dc4a57f0"; traceFlags]
       = exampleTraceparent
    /\ version +:+ "-" +:+ "909345e985cb1d64cab2231a9fd2459d" +:+ "-" +:+ "fa583390dc4a57f0"
       +:+ "-" +:+ traceFlags = exampleTraceparent.
Proof.
  apply (accepted_header_is_its_fields_rejoined exampleTraceparent
           (Otel.mkSpanContext "909345e985cb1d64cab2231a9fd2459d" "fa583390dc4a57f0"
                               (JS.Finite 1) true)).
  reflexivity.
Defined.

(** ** PathReplace *)

Lemma special_char_spec c :
  existsb (Ascii.eqb c) regexSpecialChars = true <-> isMetachar c.
Proof.
  unfold regexSpecialChars, isMetachar. simpl.
  rewrite !orb_true_iff, !Ascii.eqb_eq. intuition discriminate.
Qed.

Lemma testRegexSpecial_spec pattern :
  testRegexSpecial pattern = true
  <-> exists c, In c (list_ascii_of_string pattern) /\ isMetachar c.
Proof.
  unfold testRegexSpecial. rewrite existsb_exists.
  split; intros (c & Hin & Hc); exists c; (split; [exact Hin|]); now apply special_char_spec.
Qed.

Lemma startsWith_caret_spec pattern :
  JS.startsWith "^" pattern = true <-> exists rest, pattern = String "^" rest.
Proof.
  unfold JS.startsWith. destruct pattern as [|c rest].
  - split; [discriminate | intros (r & Hr); discriminate].
  - change (String.prefix "^" (String c rest))
      with (if ascii_dec "^" c then String.prefix EmptyString rest else false).
    destruct (ascii_dec "^" c) as [<-|Hne].
    + split; [intros _; now exists rest | intros _; now destruct rest].
    + split; [discriminate | intros (r & [= Hc _]); congruence].
Qed.

(** The test of the configuration code is the heuristic of the spec. *)
Lemma regex_detection_spec pattern :
  JS.startsWith "^" pattern || testRegexSpecial pattern = true <-> looksLikeRegExp pattern.
Proof.
  unfold looksLikeRegExp.
  rewrite orb_true_iff, startsWith_caret_spec, testRegexSpecial_spec. reflexivity.
Qed.

(** The same test read off the literal: the reference engine, given
    the source text of [/[.*+?^${}()|[\]\\]/], accepts exactly the strings
    [testRegexSpecial] accepts. *)
Lemma execFrom_class ranges input start :
  match RegExp.execFrom (RegExp.Seq (RegExp.Class false ranges) RegExp.Empty) 0 start input with
  | Some _ => true
  | None => false
  end = existsb (RegExp.inRanges ranges) input.
Proof.
  revert start. induction input as [|c cs IH]; intros start; [reflexivity|].
  cbn [RegExp.execFrom RegExp.matchRe existsb]. unfold RegExp.step. cbn [RegExp.rest].
  destruct (RegExp.inRanges ranges c); [reflexivity|]. cbn [orb]. apply IH.
Qed.

Lemma special_class_members c :
  RegExp.inRanges (map (fun x => (x, x)) regexSpecialChars) c
  = existsb (Ascii.eqb c) regexSpecialChars.
Proof. destruct c as [[] [] [] [] [] [] [] []]; reflexivity. Qed.

Lemma testRegexSpecial_is_the_literal pattern :
  testRegexSpecial pattern
  = match RegExp.exec RegExp.reference "[.*+?^${}()|[\]\\]" pattern with
    | Some _ => true
    | None => false
    end.
Proof.
  unfold RegExp.reference, RegExp.exec.
  change (RegExp.parse "[.*+?^${}()|[\]\\]")
    with (Some (RegExp.Seq (RegExp.Class false (map (fun x => (x, x)) regexSpecialChars))
                           RegExp.Empty, 0%nat)).
  cbv beta iota. rewrite execFrom_class. unfold testRegexSpecial.
  induction (list_ascii_of_string pattern) as [|c cs IH]; [reflexivity|].
  cbn [existsb]. now rewrite special_class_members, IH.
Qed.

Lemma configure_pair engine jsonParse env pattern replacement :
  JS.truthy env = true ->
  jsonParse env = Some (JsonArray [EString pattern; EString replacement]) ->
  configure engine jsonParse (Some env)
  = if JS.startsWith "^" pattern || testRegexSpecial pattern
    then if RegExp.compiles engine pattern
         then mkPathReplace (Some (PRegExp pattern)) (Some replacement)
         else unconfigured
    else mkPathReplace (Some (PString pattern)) (Some replacement).
Proof. intros Ht Hp. unfold configure. now rewrite Ht, Hp. Qed.

(** C8.  For a configuration [[pattern, replacement]]: when the
    pattern begins with [^] or contains one of
    [. * + ? ^ $ { } ( ) | [ ] \] it is handed to [new RegExp], and the
    rule holds the resulting RegExp (or no rule is kept when the
    constructor rejects the pattern); otherwise the rule holds the
    pattern as a string. *)
Theorem pattern_classification
        (engine : RegExp.Engine) (jsonParse : string -> option Parsed)
        (env pattern replacement : string) :
  JS.truthy env = true ->
  jsonParse env = Some (JsonArray [EString pattern; EString replacement]) ->
  (looksLikeRegExp pattern ->
     configure engine jsonParse (Some env)
     = if RegExp.compiles engine pattern
       then mkPathReplace (Some (PRegExp pattern)) (Some replacement)
       else unconfigured)
  /\ (~ looksLikeRegExp pattern ->
      configure engine jsonParse (Some env)
      = mkPathReplace (Some (PString pattern)) (Some replacement))
  /\ ((exists source,
          pathReplacePattern (configure engine jsonParse (Some env)) = Some (PRegExp source))
      <-> looksLikeRegExp pattern /\ RegExp.compiles engine pattern = true)
  /\ ((exists s,
          pathReplacePattern (configure engine jsonParse (Some env)) = Some (PString s))
      <-> ~ looksLikeRegExp pattern).
Proof.
  intros Ht Hp. rewrite (configure_pair _ _ _ _ _ Ht Hp).
  pose proof (regex_detection_spec pattern) as Hd.
  destruct (JS.startsWith "^" pattern || testRegexSpecial pattern).
  - assert (Hl : looksLikeRegExp pattern) by now apply Hd.
    split; [reflexivity|]. split; [intros Hn; contradiction|].
    destruct (RegExp.compiles engine pattern); simpl.
    + split; split.
      * intros _. now split.
      * intros _. now exists pattern.
      * intros (s & Hs). discriminate.
      * intros Hn. contradiction.
    + split; split.
      * intros (s & Hs). discriminate.
      * intros (_ & Hc). discriminate.
      * intros (s & Hs). discriminate.
      * intros Hn. contradiction.
  - assert (Hl : ~ looksLikeRegExp pattern).
    { intros Hl. apply Hd in Hl. discriminate. }
    split; [intros Hy; contradiction|]. split; [reflexivity|]. simpl.
    split; split.
    + intros (s & Hs). discriminate.
    + intros (Hy & _). contradiction.
    + intros _. exact Hl.
    + intros _. now exists pattern.
Qed.

Lemma pattern_classification_witness :
  configure RegExp.reference (parsesTo localeRule) (Some "rule")
  = mkPathReplace (Some (PRegExp "^/(en|de|fr)/")) (Some "/:locale/")
  /\ configure RegExp.reference (parsesTo ["/api/internal/"; "/api/"]) (Some "rule")
     = mkPathReplace (Some (PString "/api/internal/")) (Some "/api/").
Proof.
  split.
  - destruct (pattern_classification RegExp.reference (parsesTo localeRule) "rule"
                "^/(en|de|fr)/" "/:locale/" eq_refl eq_refl) as (H & _).
    apply H. left. now exists "/(en|de|fr)/".
  - destruct (pattern_classification RegExp.reference
                (parsesTo ["/api/internal/"; "/api/"]) "rule"
                "/api/internal/" "/api/" eq_refl eq_refl) as (_ & H & _).
    apply H. intros Hl. apply regex_detection_spec in Hl. discriminate.
Defined.

Lemma normalizePath_without_rule engine config path :
  pathReplacePattern config = None \/ pathReplaceReplacement config = None ->
  normalizePath engine config path = path.
Proof.
  unfold normalizePath. intros [Hp | Hr].
  - now rewrite Hp.
  - rewrite Hr. simpl. now rewrite orb_true_r.
Qed.

Lemma normalizePath_no_match engine config path :
  patternMatches engine config path = false ->
  normalizePath engine config path = path.
Proof.
  unfold normalizePath, patternMatches. intros Hm.
  destruct (negb (patternTruthy (pathReplacePattern config))
            || negb (JS.truthy_opt (pathReplaceReplacement config))); [reflexivity|].
  destruct (pathReplacePattern config) as [[source | search]|]; [| |reflexivity];
    destruct (pathReplaceReplacement config) as [replacement|]; try reflexivity.
  - unfold RegExp.replaceRegExp.
    destruct (RegExp.exec engine source path); [discriminate | reflexivity].
  - unfold JS.replaceString.
    destruct (JS.indexOf search path); [discriminate | reflexivity].
Qed.

Lemma normalizePath_empty_replacement engine config path :
  pathReplaceReplacement config = Some EmptyString ->
  normalizePath engine config path = path.
Proof.
  unfold normalizePath. intros Hr. rewrite Hr. simpl. now rewrite orb_true_r.
Qed.

(** C9.  [normalizePath] returns the path as it is when no rule is
    configured and when the configured pattern does not occur in the
    path.  With the rule [^/(en|de|fr)/] -> [/:locale/], the paths
    [/en/api/hash], [/de/api/hash] and [/fr/api/hash] become
    [/:locale/api/hash], and [/es/api/hash] stays as it is. *)
Theorem normalizePath_rule_and_fallback :
  (forall engine config path,
      pathReplacePattern config = None \/ pathReplaceReplacement config = None ->
      normalizePath engine config path = path)
  /\ (forall engine config path,
         patternMatches engine config path = false ->
         normalizePath engine config path = path)
  /\ (forall jsonParse env,
         JS.truthy env = true ->
         jsonParse env = Some (JsonArray [EString "^/(en|de|fr)/"; EString "/:locale/"]) ->
         let config := configure RegExp.reference jsonParse (Some env) in
         normalizePath RegExp.reference config "/en/api/hash" = "/:locale/api/hash"
         /\ normalizePath RegExp.reference config "/de/api/hash" = "/:locale/api/hash"
         /\ normalizePath RegExp.reference config "/fr/api/hash" = "/:locale/api/hash"
         /\ normalizePath RegExp.reference config "/es/api/hash" = "/es/api/hash").
Proof.
  split; [exact normalizePath_without_rule|].
  split; [exact normalizePath_no_match|].
  intros jsonParse env Ht Hp config. subst config.
  rewrite (configure_pair _ _ _ _ _ Ht Hp).
  repeat split; vm_compute; reflexivity.
Qed.

Lemma normalizePath_rule_and_fallback_witness :
  normalizePath RegExp.reference unconfigured "/en/api/hash" = "/en/api/hash"
  /\ normalizePath RegExp.reference
       (mkPathReplace (Some (PString "/api/internal/")) (Some "/api/")) "/en/api/hash"
     = "/en/api/hash"
  /\ normalizePath RegExp.reference
       (configure RegExp.reference (parsesTo localeRule) (Some "rule")) "/de/api/hash"
     = "/:locale/api/hash".
Proof.
  destruct normalizePath_rule_and_fallback as (H1 & H2 & H3).
  split; [apply H1; now left|].
  split; [apply H2; reflexivity|].
  apply (H3 (parsesTo localeRule) "rule" eq_refl eq_refl).
Defined.

(** C10.  A rule whose replacement is the empty string is not applied:
    [normalizePath] returns every path as it is, whatever the pattern,
    where [replace] itself would have removed the matched segment. *)
Theorem empty_replacement_disables_the_rule :
  (forall engine config path,
      pathReplaceReplacement config = Some EmptyString ->
      normalizePath engine config path = path)
  /\ (forall engine jsonParse env pattern path,
         jsonParse env = Some (JsonArray [EString pattern; EString EmptyString]) ->
         normalizePath engine (configure engine jsonParse (Some env)) path = path)
  /\ (JS.replaceString "/internal" EmptyString "/api/internal/users" = "/api/users"
      /\ normalizePath RegExp.reference
           (mkPathReplace (Some (PString "/internal")) (Some EmptyString))
           "/api/internal/users" = "/api/internal/users").
Proof.
  split; [exact normalizePath_empty_replacement|]. split.
  - intros engine jsonParse env pattern path Hp.
    destruct (JS.truthy env) eqn:Ht.
    + rewrite (configure_pair _ _ _ _ _ Ht Hp).
      destruct (JS.startsWith "^" pattern || testRegexSpecial pattern);
        [destruct (RegExp.compiles engine pattern)|];
        solve [now apply normalizePath_empty_replacement
              | apply normalizePath_without_rule; now left].
    + unfold configure. rewrite Ht. apply normalizePath_without_rule. now left.
  - split; vm_compute; reflexivity.
Qed.

Lemma empty_replacement_disables_the_rule_witness :
  normalizePath RegExp.reference
    (configure RegExp.reference (parsesTo ["^/(en|de|fr)/"; EmptyString]) (Some "rule"))
    "/en/api/hash" = "/en/api/hash".
Proof.
  destruct empty_replacement_disables_the_rule as (_ & H & _).
  apply (H RegExp.reference (parsesTo ["^/(en|de|fr)/"; EmptyString]) "rule"
           "^/(en|de|fr)/").
  reflexivity.
Defined.

(* ===================================================================== *)
(** * Further properties of the plugin *)
(* ===================================================================== *)

(** ** The parts of a split *)

Lemma split_length sep s :
  List.length (JS.split sep s) = S (countChar sep s).
Proof.
  induction s as [|c s IH]; simpl; [reflexivity|].
  destruct (Ascii.eqb c sep); simpl; [now rewrite IH|].
  destruct (JS.split sep s) as [|p ps]; simpl in *; [discriminate | exact IH].
Qed.

Lemma split_parts_free sep s :
  Forall (fun part => countChar sep part = 0%nat) (JS.split sep s).
Proof.
  induction s as [|c s IH]; simpl; [now repeat constructor|].
  destruct (Ascii.eqb c sep) eqn:Hc; [now constructor|].
  destruct (JS.split sep s) as [|p ps]; [repeat constructor; simpl; now rewrite Hc|].
  inversion IH as [|? ? Hp Hps]; subst.
  constructor; [simpl; now rewrite Hc | exact Hps].
Qed.

Lemma countChar_empty_iff_falsy c s :
  JS.truthy s = false -> countChar c s = 0%nat.
Proof. destruct s; [reflexivity | discriminate]. Qed.

(** X1.  The hook accepts a header exactly when it contains three
    hyphens: nothing else about the value is looked at. *)
Theorem accepted_iff_three_hyphens (h : string) :
  (exists ctx, remoteSpanContext (Some h) = Some ctx) <-> countChar "-" h = 3%nat.
Proof.
  pose proof (split_length "-" h) as Hlen. split.
  - intros (ctx & Hc). destruct (remoteSpanContext_inv _ _ Hc) as (v & f & Hs & _).
    rewrite Hs in Hlen. simpl in Hlen. lia.
  - intros Hn. rewrite Hn in Hlen.
    destruct (JS.split "-" h) as [|v [|t [|p [|f [|]]]]] eqn:Hs; try discriminate.
    eexists. now apply (remoteSpanContext_four_parts h v t p f).
Qed.

(** ** The flags *)

Lemma trimStart_free c s :
  countChar c s = 0%nat -> countChar c (JS.trimStart s) = 0%nat.
Proof.
  induction s as [|x s IH]; [reflexivity|]. simpl.
  destruct (JS.isWhiteSpace x).
  - destruct (Ascii.eqb x c); [discriminate | exact IH].
  - trivial.
Qed.

Lemma hexDigit_range c d : JS.hexDigit c = Some d -> (0 <= d < 16)%Z.
Proof.
  unfold JS.hexDigit.
  destruct ((48 <=? nat_of_ascii c)%nat && (nat_of_ascii c <=? 57)%nat) eqn:H1;
    [|destruct ((97 <=? nat_of_ascii c)%nat && (nat_of_ascii c <=? 102)%nat) eqn:H2;
      [|destruct ((65 <=? nat_of_ascii c)%nat && (nat_of_ascii c <=? 70)%nat) eqn:H3;
        [|discriminate]]];
    intros [= <-];
    repeat match goal with
           | H : (_ && _) = true |- _ => apply andb_prop in H; destruct H
           | H : (_ <=? _)%nat = true |- _ => apply Nat.leb_le in H
           end; lia.
Qed.

Lemma hexDigits_nonneg s acc v :
  (forall a, acc = Some a -> (0 <= a)%Z) ->
  JS.hexDigits s acc = Some v -> (0 <= v)%Z.
Proof.
  revert acc. induction s as [|c s IH]; intros acc Hacc; simpl.
  - intros ->. now apply Hacc.
  - destruct (JS.hexDigit c) as [d|] eqn:Hd.
    + apply IH. intros a [= <-]. apply hexDigit_range in Hd.
      destruct acc as [a|]; simpl; [specialize (Hacc a eq_refl)|]; lia.
    + intros ->. now apply Hacc.
Qed.

Lemma roundToDouble_nonneg m : (0 <= m)%Z -> (0 <= JS.roundToDouble m)%Z.
Proof.
  intros Hm. unfold JS.roundToDouble.
  destruct (Z.log2 m + 1 <=? 53)%Z; [exact Hm|].
  apply Z.shiftl_nonneg.
  assert (Hq : (0 <= Z.shiftr m (Z.log2 m + 1 - 53))%Z) by now apply Z.shiftr_nonneg.
  destruct ((Z.shiftl 1 (Z.log2 m + 1 - 53 - 1) <? Z.land m (Z.ones (Z.log2 m + 1 - 53)))%Z
            || ((Z.land m (Z.ones (Z.log2 m + 1 - 53)) =? Z.shiftl 1 (Z.log2 m + 1 - 53 - 1))%Z
                && Z.odd (Z.shiftr m (Z.log2 m + 1 - 53)))); lia.
Qed.

(** Up to 53 bits nothing is rounded. *)
Lemma roundToDouble_exact m : (0 <= m < 2 ^ 53)%Z -> JS.roundToDouble m = m.
Proof.
  intros [H0 H53]. unfold JS.roundToDouble.
  destruct (Z.leb_spec (Z.log2 m + 1) 53) as [|Hgt]; [reflexivity|].
  exfalso. destruct (Z.eq_dec m 0%Z) as [->|Hne]; [simpl in Hgt; lia|].
  assert (Z.log2 m < 53)%Z by (apply Z.log2_lt_pow2; lia). lia.
Qed.

Lemma toNumber_small m : (0 <= m < 2 ^ 53)%Z -> JS.toNumber false m = JS.Finite m.
Proof.
  intros Hm. unfold JS.toNumber. rewrite (roundToDouble_exact m Hm).
  destruct (Z.leb_spec (Z.shiftl 1 1024) m) as [Hbig|]; [|reflexivity].
  exfalso. rewrite Z.shiftl_1_l in Hbig.
  assert (2 ^ 53 <= 2 ^ 1024)%Z by (apply Z.pow_le_mono_r; lia). lia.
Qed.

(** A Number that is not negative: NaN, the positive infinity, or a
    finite value from zero up. *)
Lemma toNumber_nonneg m :
  (0 <= m)%Z ->
  JS.toNumber false m = JS.Infinity false
  \/ exists v, JS.toNumber false m = JS.Finite v /\ (0 <= v)%Z.
Proof.
  intros Hm. unfold JS.toNumber.
  destruct (Z.shiftl 1 1024 <=? JS.roundToDouble m)%Z; [now left | right].
  eexists. split; [reflexivity | now apply roundToDouble_nonneg].
Qed.

Ltac hexDigits_nonneg_tac :=
  let E := fresh "E" in
  match goal with
  | |- context [JS.hexDigits ?x ?a] =>
      destruct (JS.hexDigits x a) eqn:E;
      [ apply hexDigits_nonneg in E; [|discriminate];
        right; now apply toNumber_nonneg
      | now left ]
  end.

(** Without a minus sign in the text, [parseInt] is never negative. *)
Lemma parseInt16_nonneg s :
  countChar "-" s = 0%nat ->
  JS.parseInt16 s = JS.NaN
  \/ JS.parseInt16 s = JS.Infinity false
  \/ exists v, JS.parseInt16 s = JS.Finite v /\ (0 <= v)%Z.
Proof.
  intros Hfree. apply (trimStart_free "-") in Hfree. unfold JS.parseInt16.
  destruct (JS.trimStart s) as [|c r].
  - cbv beta iota zeta. hexDigits_nonneg_tac.
  - destruct c as [[] [] [] [] [] [] [] []];
      try (simpl in Hfree; discriminate);
      cbv beta iota zeta;
      try hexDigits_nonneg_tac;
      (destruct r as [|c2 r2];
       [ cbv beta iota zeta; hexDigits_nonneg_tac
       | destruct c2 as [[] [] [] [] [] [] [] []];
         cbv beta iota zeta; hexDigits_nonneg_tac ]).
Qed.

(** X2.  The remote context of an accepted header is always marked
    remote, its trace id and parent span id contain no hyphen, and its
    flags are NaN or a non-negative number: a finite one from zero up,
    or the positive infinity when the field spells more than a double
    holds. *)
Theorem accepted_context_shape (h : string) (ctx : Otel.SpanContext) :
  remoteSpanContext (Some h) = Some ctx ->
  Otel.isRemote ctx = true
  /\ countChar "-" (Otel.traceId ctx) = 0%nat
  /\ countChar "-" (Otel.spanId ctx) = 0%nat
  /\ (Otel.traceFlags ctx = JS.NaN
      \/ Otel.traceFlags ctx = JS.Infinity false
      \/ exists flags, Otel.traceFlags ctx = JS.Finite flags /\ (0 <= flags)%Z).
Proof.
  intros Hc. destruct (remoteSpanContext_inv _ _ Hc) as (v & f & Hs & Hf & Hr).
  pose proof (split_parts_free "-" h) as Hfree. rewrite Hs in Hfree.
  inversion Hfree as [|? ? _ H1]; subst. inversion H1 as [|? ? Ht H2]; subst.
  inversion H2 as [|? ? Hp H3]; subst. inversion H3 as [|? ? Hfl _]; subst.
  repeat split; try assumption.
  rewrite Hf. now apply parseInt16_nonneg.
Qed.

Lemma accepted_context_shape_witness :
  Otel.isRemote (Otel.mkSpanContext "909345e985cb1d64cab2231a9fd2459d"
                                    "fa583390dc4a57f0" (JS.Finite 1) true) = true
  /\ countChar "-" "909345e985cb1d64cab2231a9fd2459d" = 0%nat
  /\ countChar "-" "fa583390dc4a57f0" = 0%nat
  /\ (JS.Finite 1 = JS.NaN
      \/ JS.Finite 1 = JS.Infinity false
      \/ exists flags, JS.Finite 1 = JS.Finite flags /\ (0 <= flags)%Z).
Proof.
  apply (accepted_context_shape exampleTraceparent
           (Otel.mkSpanContext "909345e985cb1d64cab2231a9fd2459d" "fa583390dc4a57f0"
                               (JS.Finite 1) true)).
  reflexivity.
Defined.

Lemma isHex_hexDigit c :
  isHex c = true -> exists d, JS.hexDigit c = Some d /\ (0 <= d < 16)%Z.
Proof.
  intros Hc. destruct (JS.hexDigit c) as [d|] eqn:Hd.
  - exists d. split; [reflexivity | now apply (hexDigit_range c)].
  - exfalso. revert Hc Hd.
    destruct c as [[] [] [] [] [] [] [] []]; vm_compute; congruence.
Qed.

Lemma hexDigits_two c1 c2 d1 d2 :
  JS.hexDigit c1 = Some d1 -> JS.hexDigit c2 = Some d2 ->
  JS.hexDigits (String c1 (String c2 EmptyString)) None = Some (16 * d1 + d2)%Z.
Proof.
  intros H1 H2. cbn [JS.hexDigits]. rewrite H1, H2. cbn [default]. unfold id.
  f_equal; lia.
Qed.

(** Two hex digits read as one byte. *)
Lemma parseInt16_two_hex c1 c2 :
  isHex c1 = true -> isHex c2 = true ->
  exists d1 d2,
    JS.hexDigit c1 = Some d1 /\ JS.hexDigit c2 = Some d2
    /\ JS.parseInt16 (String c1 (String c2 EmptyString)) = JS.Finite (16 * d1 + d2)%Z.
Proof.
  intros H1 H2.
  destruct (isHex_hexDigit c1 H1) as (d1 & Hd1 & Hr1).
  destruct (isHex_hexDigit c2 H2) as (d2 & Hd2 & Hr2).
  exists d1, d2. split; [exact Hd1|]. split; [exact Hd2|].
  assert (Hsmall : JS.toNumber false (16 * d1 + d2) = JS.Finite (16 * d1 + d2))
    by (apply toNumber_small; lia).
  pose proof (hexDigits_two c1 c2 d1 d2 Hd1 Hd2) as Hd.
  assert (Hrest : JS.hexDigits (String c2 EmptyString) None = Some d2)
    by (cbn [JS.hexDigits]; rewrite Hd2; cbn [default]; unfold id; f_equal; lia).
  unfold JS.parseInt16.
  destruct c1 as [[] [] [] [] [] [] [] []]; try discriminate H1;
    change (JS.trimStart (String ?c ?r)) with (String c r);
    cbv beta iota zeta;
    try (rewrite Hd; exact Hsmall).
  (* the first digit is 0: the second could have been the x of a prefix *)
  destruct c2 as [[] [] [] [] [] [] [] []]; try discriminate H2;
    cbv beta iota zeta; rewrite Hd; exact Hsmall.
Qed.

(** X3.  When the fourth field of a header is two hex characters, as
    the W3C format has it, the flags of the remote context are the byte
    those two digits spell: never NaN, and between 0 and 255. *)
Theorem two_hex_flags_are_a_byte
        (h version traceId parentSpanId : string) (c1 c2 : ascii) :
  JS.split "-" h = [version; traceId; parentSpanId; String c1 (String c2 EmptyString)] ->
  isHex c1 = true -> isHex c2 = true ->
  exists d1 d2,
    JS.hexDigit c1 = Some d1 /\ JS.hexDigit c2 = Some d2
    /\ remoteSpanContext (Some h)
       = Some (Otel.mkSpanContext traceId parentSpanId (JS.Finite (16 * d1 + d2)) true)
    /\ (0 <= 16 * d1 + d2 < 256)%Z.
Proof.
  intros Hs H1 H2.
  destruct (parseInt16_two_hex c1 c2 H1 H2) as (d1 & d2 & Hd1 & Hd2 & Hp).
  exists d1, d2. split; [exact Hd1|]. split; [exact Hd2|].
  rewrite (remoteSpanContext_four_parts _ _ _ _ _ Hs), Hp.
  split; [reflexivity|].
  apply hexDigit_range in Hd1, Hd2. lia.
Qed.

Lemma two_hex_flags_are_a_byte_witness :
  exists d1 d2,
    JS.hexDigit "0" = Some d1 /\ JS.hexDigit "1" = Some d2
    /\ remoteSpanContext (Some exampleTraceparent)
       = Some (Otel.mkSpanContext "909345e985cb1d64cab2231a9fd2459d" "fa583390dc4a57f0"
                                  (JS.Finite (16 * d1 + d2)) true)
    /\ (0 <= 16 * d1 + d2 < 256)%Z.
Proof.
  apply (two_hex_flags_are_a_byte exampleTraceparent "00"); reflexivity.
Defined.


(** ** What the [request] hook reads and writes *)

Lemma truthy_nonempty s : JS.truthy s = true <-> s <> EmptyString.
Proof.
  unfold JS.truthy. destruct (String.eqb_spec s EmptyString) as [->|Hne]; simpl.
  - split; [discriminate | congruence].
  - split; [intros _; exact Hne | reflexivity].
Qed.

(** X4.  The path the span is named after is never empty: it is
    [event.path] when that is non-empty, else the request's [url] when
    that is present and non-empty, else ["/"]. *)
Theorem requestPath_is_never_empty (event : H3Event) :
  requestPath event <> EmptyString
  /\ (path event <> EmptyString -> requestPath event = path event)
  /\ (path event = EmptyString ->
      forall u, url (req event) = Some u -> u <> EmptyString -> requestPath event = u)
  /\ (path event = EmptyString ->
      url (req event) = None \/ url (req event) = Some EmptyString ->
      requestPath event = "/").
Proof.
  unfold requestPath. repeat split.
  - destruct (JS.truthy (path event)) eqn:Hp; [now apply truthy_nonempty|].
    destruct (url (req event)) as [u|]; simpl; [|discriminate].
    destruct (JS.truthy u) eqn:Hu; [now apply truthy_nonempty | discriminate].
  - intros Hp. apply truthy_nonempty in Hp. now rewrite Hp.
  - intros Hp u Hu Hne. rewrite Hp, Hu. simpl.
    apply truthy_nonempty in Hne. now rewrite Hne.
  - intros Hp [Hu | Hu]; rewrite Hp, Hu; reflexivity.
Qed.

Lemma requestAttributes_lookup engine config now event :
  requestAttributes engine config now event !! "url.path"
  = Some (Otel.AString (requestPath event))
  /\ requestAttributes engine config now event !! "http.route"
     = Some (Otel.AString (normalizePath engine config (requestPath event)))
  /\ requestAttributes engine config now event !! "http.request.method"
     = Some (Otel.AString (method event))
  /\ requestAttributes engine config now event !! "url.scheme"
     = Some (Otel.AString "http")
  /\ requestAttributes engine config now event !! "http.request.header.x-user-agent"
     = Some (Otel.ofHeader (headers (req event) !! "user-agent"))
  /\ requestAttributes engine config now event !! "http.request.header.x-client-id"
     = Some (Otel.ofHeader (headers (req event) !! "x-client-id"))
  /\ requestAttributes engine config now event !! "http.request.header.x-request-time"
     = Some (Otel.AString now).
Proof. unfold requestAttributes. repeat split; now simplify_map_eq. Qed.

(** X5.  The [request] hook changes nothing of the event but the span
    slot of its context.  The span it asks the tracer for is a SERVER
    span named after the method and the normalized path, whose
    attributes keep the path as it came in under [url.path] next to
    the normalized one under [http.route], and record a header that is
    missing as [undefined]. *)
Theorem request_keeps_the_raw_path
        (engine : RegExp.Engine) (tracer : Otel.Tracer) (config : PathReplace)
        (now : string) (event : H3Event) :
  (method (request engine tracer config now event) = method event
   /\ path (request engine tracer config now event) = path event
   /\ req (request engine tracer config now event) = req event
   /\ res (request engine tracer config now event) = res event)
  /\ forall h ctx,
      headers (req event) !! "traceparent" = Some h ->
      remoteSpanContext (Some h) = Some ctx ->
      exists options,
        span (context (request engine tracer config now event))
        = Some (Otel.startSpan tracer
                  (method event +:+ " " +:+ normalizePath engine config (requestPath event))
                  options ctx)
        /\ Otel.optKind options = Otel.SERVER
        /\ Otel.optAttributes options !! "url.path"
           = Some (Otel.AString (requestPath event))
        /\ Otel.optAttributes options !! "http.route"
           = Some (Otel.AString (normalizePath engine config (requestPath event)))
        /\ (headers (req event) !! "x-client-id" = None ->
            Otel.optAttributes options !! "http.request.header.x-client-id"
            = Some Otel.AUndefined)
        /\ (forall ua, headers (req event) !! "user-agent" = Some ua ->
            Otel.optAttributes options !! "http.request.header.x-user-agent"
            = Some (Otel.AString ua)).
Proof.
  split.
  - unfold request.
    destruct (remoteSpanContext (headers (req event) !! "traceparent")); now repeat split.
  - intros h ctx Hh Hc. rewrite (request_with_context _ _ _ _ _ _ _ Hh Hc).
    destruct (requestAttributes_lookup engine config now event)
      as (H1 & H2 & _ & _ & H5 & H6 & _).
    eexists. split; [reflexivity|]. simpl.
    split; [reflexivity|]. split; [exact H1|]. split; [exact H2|].
    split.
    + intros Hn. now rewrite H6, Hn.
    + intros ua Hua. now rewrite H5, Hua.
Qed.

Lemma request_keeps_the_raw_path_witness :
  exists options,
    span (context (request RegExp.reference exampleTracer
                     (mkPathReplace (Some (PRegExp "^/(en|de|fr)/")) (Some "/:locale/"))
                     exampleNow
                     (mkEvent "POST" "/en/api/hash"
                        (mkReq {[ "traceparent" := exampleTraceparent ]} None)
                        (mkRes 200 ∅) (mkContext None))))
    = Some (Otel.startSpan exampleTracer "POST /:locale/api/hash" options
              (Otel.mkSpanContext "909345e985cb1d64cab2231a9fd2459d" "fa583390dc4a57f0"
                                  (JS.Finite 1) true))
    /\ Otel.optAttributes options !! "url.path" = Some (Otel.AString "/en/api/hash")
    /\ Otel.optAttributes options !! "http.route" = Some (Otel.AString "/:locale/api/hash").
Proof.
  destruct (request_keeps_the_raw_path RegExp.reference exampleTracer
              (mkPathReplace (Some (PRegExp "^/(en|de|fr)/")) (Some "/:locale/"))
              exampleNow
              (mkEvent "POST" "/en/api/hash"
                 (mkReq {[ "traceparent" := exampleTraceparent ]} None)
                 (mkRes 200 ∅) (mkContext None))) as [_ H].
  destruct (H exampleTraceparent
              (Otel.mkSpanContext "909345e985cb1d64cab2231a9fd2459d" "fa583390dc4a57f0"
                                  (JS.Finite 1) true) eq_refl eq_refl)
    as (options & H1 & _ & H3 & H4 & _).
  exists options. split; [exact H1|]. split; [exact H3 | exact H4].
Defined.

Lemma requestPath_is_never_empty_witness :
  requestPath (mkEvent "GET" EmptyString (mkReq ∅ (Some "/health")) (mkRes 200 ∅)
                       (mkContext None)) = "/health"
  /\ requestPath (mkEvent "GET" EmptyString (mkReq ∅ None) (mkRes 200 ∅)
                          (mkContext None)) = "/".
Proof.
  split.
  - destruct (requestPath_is_never_empty
                (mkEvent "GET" EmptyString (mkReq ∅ (Some "/health")) (mkRes 200 ∅)
                         (mkContext None))) as (_ & _ & H & _).
    apply H; [reflexivity | reflexivity | discriminate].
  - destruct (requestPath_is_never_empty
                (mkEvent "GET" EmptyString (mkReq ∅ None) (mkRes 200 ∅)
                         (mkContext None))) as (_ & _ & _ & H).
    apply H; [reflexivity | now left].
Defined.

(** ** The callbacks, for any span handle *)

Lemma setSpan_fields event s :
  method (setSpan event s) = method event
  /\ path (setSpan event s) = path event
  /\ req (setSpan event s) = req event
  /\ res (setSpan event s) = res event.
Proof. now repeat split. Qed.

(** One callback: the request and the response are left alone, the
    exporter's log is extended by at most the span of the event, ended,
    and the event keeps that span or drops it. *)
Lemma deliver_step cb event exporter :
  exists added,
    snd (deliver cb (event, exporter)) = exporter ++ added
    /\ (method (fst (deliver cb (event, exporter))) = method event
        /\ path (fst (deliver cb (event, exporter))) = path event
        /\ req (fst (deliver cb (event, exporter))) = req event
        /\ res (fst (deliver cb (event, exporter))) = res event)
    /\ match span (context event) with
       | None => added = [] /\ span (context (fst (deliver cb (event, exporter)))) = None
       | Some sp =>
           Forall (fun s => Otel.ended s = true /\ sameSpan sp s) added
           /\ match span (context (fst (deliver cb (event, exporter)))) with
              | None => True
              | Some sp' => sameSpan sp sp'
              end
       end.
Proof.
  destruct (span (context event)) as [sp|] eqn:Hsp.
  - destruct sp as [? ? ? ? ? ? ? [|?] ?];
      destruct cb; simpl; unfold beforeResponse, afterResponse; rewrite Hsp;
      match goal with
      | |- context [Otel.truthy (Otel.isEnded ?x)] => destruct (Otel.truthy (Otel.isEnded x))
      end; simpl;
      try rewrite Hsp;
      first [ exists []; rewrite app_nil_r; now repeat split
            | eexists [_]; split; [reflexivity|]; split; [now repeat split|];
              split; [repeat constructor | first [exact I | now repeat split]] ].
  - rewrite deliver_without_span by exact Hsp. exists []. rewrite app_nil_r. simpl.
    now rewrite Hsp.
Qed.

Lemma sameSpan_trans sp1 sp2 sp3 : sameSpan sp1 sp2 -> sameSpan sp2 sp3 -> sameSpan sp1 sp3.
Proof. unfold sameSpan. intros (H1 & H2 & H3) (H4 & H5 & H6). repeat split; congruence. Qed.

(** X6.  Whatever the span handle can do, a sequence of callbacks
    never touches the request or the response, never removes or
    rewrites what the exporter already has, and hands over nothing but
    ended states of the request's own span; without a span on the
    event it hands over nothing. *)
Theorem callbacks_only_finish_the_request_span
        (cbs : list Callback) (event : H3Event) (exporter : list Otel.Span) :
  exists added,
    snd (deliverAll cbs (event, exporter)) = exporter ++ added
    /\ (method (fst (deliverAll cbs (event, exporter))) = method event
        /\ path (fst (deliverAll cbs (event, exporter))) = path event
        /\ req (fst (deliverAll cbs (event, exporter))) = req event
        /\ res (fst (deliverAll cbs (event, exporter))) = res event)
    /\ match span (context event) with
       | None => added = []
       | Some sp => Forall (fun s => Otel.ended s = true /\ sameSpan sp s) added
       end.
Proof.
  revert event exporter. induction cbs as [|cb cbs IH]; intros event exporter.
  - exists []. rewrite app_nil_r. simpl. split; [reflexivity|]. split; [now repeat split|].
    destruct (span (context event)); [constructor | reflexivity].
  - destruct (deliver_step cb event exporter) as (a1 & Hx1 & (Hm1 & Hp1 & Hq1 & Hr1) & Hs1).
    unfold deliverAll in *. simpl fold_left.
    destruct (deliver cb (event, exporter)) as [event1 exporter1] eqn:Hd.
    simpl in Hx1, Hm1, Hp1, Hq1, Hr1, Hs1. subst exporter1.
    destruct (IH event1 (exporter ++ a1)) as (a2 & Hx2 & (Hm2 & Hp2 & Hq2 & Hr2) & Hs2).
    exists (a1 ++ a2). rewrite Hx2, app_assoc.
    split; [reflexivity|]. split; [repeat split; congruence|].
    destruct (span (context event)) as [sp|].
    + destruct Hs1 as [Ha1 Hnext]. apply Forall_app. split; [exact Ha1|].
      destruct (span (context event1)) as [sp1|]; [|now subst a2].
      eapply Forall_impl; [exact Hs2|].
      intros s [He Hsame]. split; [exact He|]. now apply (sameSpan_trans sp sp1).
    + destruct Hs1 as [-> Hn]. rewrite Hn in Hs2. now subst a2.
Qed.

(** ** From the header to the exporter *)

Lemma childTracer_startsActiveSpans newSpanId :
  startsActiveSpans (Otel.childTracer newSpanId).
Proof. intros name options parent. now split. Qed.

(** The first callback on an active span whose handle answers
    [isEnded] decides what the exporter gets. *)
Lemma first_callback_exports cb cbs event exporter sp :
  span (context event) = Some sp ->
  Otel.ended sp = false -> Otel.implementsIsEnded sp = true ->
  snd (deliverAll (cb :: cbs) (event, exporter))
  = exporter ++
    [Otel.finish
       match cb with
       | BeforeResponse =>
           Otel.setStatus (responseStatus (responseStatusCode event))
             (Otel.setAttributes (responseAttributes event) sp)
       | OnError err =>
           Otel.setStatus (Otel.mkStatus Otel.ERROR (Some (Otel.exceptionMessage err)))
             (Otel.recordException err sp)
       | AfterResponse => sp
       end].
Proof.
  intros Hsp He Hi.
  destruct (deliver_active cb event exporter sp Hsp He Hi) as (sp' & _ & _ & Hs).
  unfold deliverAll. simpl fold_left.
  destruct (deliver cb (event, exporter)) as [event' exporter'] eqn:Hd.
  simpl in Hs. pose proof (deliverAll_settled cbs event' exporter' Hs) as Hall.
  unfold deliverAll in Hall. rewrite Hall.
  destruct cb; simpl in Hd.
  - rewrite (beforeResponse_active _ _ _ Hsp He) in Hd. now injection Hd as _ <-.
  - rewrite Hsp, isEnded_of_active in Hd by exact He. simpl in Hd. now injection Hd as _ <-.
  - rewrite (afterResponse_active _ _ _ Hsp He) in Hd. now injection Hd as _ <-.
Qed.

(** X7.  From the header to the exporter: for a header with four
    parts and a tracer that starts active spans in the parent's trace,
    behind handles that answer [isEnded], any non-empty sequence of
    callbacks hands the exporter exactly one span; it is ended and
    carries the header's second field as its trace id. *)
Theorem one_span_per_traced_request
        (engine : RegExp.Engine) (tracer : Otel.Tracer) (config : PathReplace)
        (now : string) (event : H3Event) (exporter : list Otel.Span)
        (h version traceId parentSpanId traceFlags : string)
        (cb : Callback) (cbs : list Callback) :
  Otel.joinsParentTrace tracer ->
  startsActiveSpans tracer ->
  headers (req event) !! "traceparent" = Some h ->
  JS.split "-" h = [version; traceId; parentSpanId; traceFlags] ->
  exists sp,
    snd (deliverAll (cb :: cbs) (request engine tracer config now event, exporter))
    = exporter ++ [sp]
    /\ Otel.ended sp = true
    /\ Otel.traceId (Otel.spanContext sp) = traceId.
Proof.
  intros Hjoin Hstart Hh Hs.
  rewrite (request_with_context _ _ _ _ _ _ _ Hh (remoteSpanContext_four_parts _ _ _ _ _ Hs)).
  match goal with
  | |- context [setSpan event (Some ?s)] => set (sp0 := s)
  end.
  destruct (Hstart (method event +:+ " " +:+ normalizePath engine config (requestPath event))
                   (Otel.mkSpanOptions Otel.SERVER
                      (requestAttributes engine config now event))
                   (Otel.mkSpanContext traceId parentSpanId (JS.parseInt16 traceFlags) true))
    as [He Hi].
  fold sp0 in He, Hi.
  rewrite (first_callback_exports cb cbs (setSpan event (Some sp0)) exporter sp0
             eq_refl He Hi).
  eexists. split; [reflexivity|]. split; [reflexivity|].
  assert (Ht : Otel.traceId (Otel.spanContext sp0) = traceId).
  { unfold sp0. now rewrite Hjoin. }
  destruct cb; cbn [Otel.finish Otel.spanContext];
    rewrite ?(proj1 (setStatus_frame _ _)), ?(proj1 (setAttributes_frame _ _)),
            ?(proj1 (recordException_frame _ _));
    exact Ht.
Qed.

Lemma one_span_per_traced_request_witness :
  exists sp,
    snd (deliverAll [OnError boom; BeforeResponse; AfterResponse]
           (request RegExp.reference exampleTracer unconfigured exampleNow
                    (exampleEvent {[ "traceparent" := exampleTraceparent ]}), []))
    = [] ++ [sp]
    /\ Otel.ended sp = true
    /\ Otel.traceId (Otel.spanContext sp) = "909345e985cb1d64cab2231a9fd2459d".
Proof.
  apply (one_span_per_traced_request RegExp.reference exampleTracer unconfigured exampleNow
           (exampleEvent {[ "traceparent" := exampleTraceparent ]}) []
           exampleTraceparent "00" "909345e985cb1d64cab2231a9fd2459d"
           "fa583390dc4a57f0" "01").
  - apply childTracer_joinsParentTrace.
  - apply childTracer_startsActiveSpans.
  - reflexivity.
  - reflexivity.
Defined.

(** X8.  The first callback wins.  With an active span whose handle
    answers [isEnded], the one span the exporter gets is the span as
    the first callback finished it, whatever follows: after [error] it
    has status ERROR with the fault's message and the fault recorded,
    even when [beforeResponse] comes later with a status code below
    400; after [beforeResponse] it has the response's status and no
    fault that is raised later; after [afterResponse] alone it is
    the span as it was, ended. *)
Theorem first_callback_decides_the_span
        (event : H3Event) (exporter : list Otel.Span) (sp : Otel.Span)
        (cbs : list Callback) :
  span (context event) = Some sp ->
  Otel.ended sp = false -> Otel.implementsIsEnded sp = true ->
  (forall err,
      exists sp',
        snd (deliverAll (OnError err :: cbs) (event, exporter)) = exporter ++ [sp']
        /\ Otel.status sp' = Otel.mkStatus Otel.ERROR (Some (Otel.exceptionMessage err))
        /\ Otel.exceptions sp' = Otel.exceptions sp ++ [err]
        /\ Otel.attributes sp' = Otel.attributes sp)
  /\ (exists sp',
         snd (deliverAll (BeforeResponse :: cbs) (event, exporter)) = exporter ++ [sp']
         /\ Otel.status sp' = responseStatus (responseStatusCode event)
         /\ Otel.exceptions sp' = Otel.exceptions sp
         /\ Otel.attributes sp' = responseAttributes event ∪ Otel.attributes sp)
  /\ snd (deliverAll (AfterResponse :: cbs) (event, exporter))
     = exporter ++ [Otel.finish sp].
Proof.
  intros Hsp He Hi. pose proof He as He'. span_active sp He'. split; [|split].
  - intros err. rewrite (first_callback_exports _ _ _ _ _ Hsp He Hi).
    eexists. split; [reflexivity|]. now repeat split.
  - rewrite (first_callback_exports _ _ _ _ _ Hsp He Hi).
    eexists. split; [reflexivity|]. now repeat split.
  - now rewrite (first_callback_exports _ _ _ _ _ Hsp He Hi).
Qed.

Lemma first_callback_decides_the_span_witness :
  exists sp',
    snd (deliverAll [OnError boom; BeforeResponse; AfterResponse] (exampleTracedEvent, []))
    = [] ++ [sp']
    /\ Otel.status sp' = Otel.mkStatus Otel.ERROR (Some "boom")
    /\ Otel.exceptions sp' = [] ++ [boom].
Proof.
  edestruct (first_callback_decides_the_span exampleTracedEvent []) as [H _].
  - reflexivity.
  - reflexivity.
  - reflexivity.
  - destruct (H boom) as (sp' & H1 & H2 & H3 & _).
    exists sp'. split; [exact H1|]. split; [exact H2 | exact H3].
Defined.

(** ** A handle without [isEnded] *)

(** X9.  On a span object without an [isEnded] method the guard
    [span.isEnded?.()] is [undefined] and never holds a hook back:
    every callback that finds the span on the event calls
    [span.end()], so the number of calls of [end()] is the number of
    callbacks up to and including the first [afterResponse], not
    one. *)
Theorem without_isEnded_every_callback_ends_the_span
        (cbs : list Callback) (event : H3Event) (exporter : list Otel.Span)
        (sp : Otel.Span) :
  span (context event) = Some sp ->
  Otel.implementsIsEnded sp = false ->
  List.length (snd (deliverAll cbs (event, exporter)))
  = (List.length exporter + untilCleanup cbs)%nat.
Proof.
  revert event exporter sp. induction cbs as [|cb cbs IH]; intros event exporter sp Hsp Hi.
  - simpl. lia.
  - unfold deliverAll in *. simpl fold_left. destruct cb; simpl deliver; simpl untilCleanup.
    + unfold beforeResponse. rewrite Hsp, (isEnded_missing _ Hi). simpl.
      erewrite IH;
        [|reflexivity
         |cbn [Otel.finish Otel.implementsIsEnded];
          rewrite ?(proj2 (proj2 (proj2 (proj2 (setStatus_frame _ _))))),
                  ?(proj2 (proj2 (proj2 (proj2 (setAttributes_frame _ _))))),
                  ?(proj2 (proj2 (proj2 (proj2 (recordException_frame _ _)))));
          exact Hi].
      rewrite length_app. simpl. lia.
    + rewrite Hsp, (isEnded_missing _ Hi). simpl.
      erewrite IH;
        [|reflexivity
         |cbn [Otel.finish Otel.implementsIsEnded];
          rewrite ?(proj2 (proj2 (proj2 (proj2 (setStatus_frame _ _))))),
                  ?(proj2 (proj2 (proj2 (proj2 (setAttributes_frame _ _))))),
                  ?(proj2 (proj2 (proj2 (proj2 (recordException_frame _ _)))));
          exact Hi].
      rewrite length_app. simpl. lia.
    + unfold afterResponse. rewrite Hsp, (isEnded_missing _ Hi). simpl.
      pose proof (deliverAll_without_span cbs (setSpan event None)
                    (exporter ++ [Otel.finish sp]) eq_refl) as Hrest.
      unfold deliverAll in Hrest. rewrite Hrest. simpl. rewrite length_app. simpl. lia.
Qed.

Lemma without_isEnded_every_callback_ends_the_span_witness :
  List.length
    (snd (deliverAll [BeforeResponse; AfterResponse]
            (request RegExp.reference (bareTracer "00f067aa0ba902b7") unconfigured
                     exampleNow (exampleEvent {[ "traceparent" := exampleTraceparent ]}),
             [])))
  = (List.length (@nil Otel.Span) + untilCleanup [BeforeResponse; AfterResponse])%nat.
Proof.
  eapply without_isEnded_every_callback_ends_the_span; reflexivity.
Defined.

(** ** The [error] hook *)

(** X10.  The [error] hook does nothing when it is called without an
    event or when the event has no span.  On an active span it records
    the fault, sets the status to ERROR with the fault's message, and
    ends the span, once; the attributes and the span context stay as
    they were. *)
Theorem error_hook_finishes_with_the_fault
        (err : Otel.Exception) (event : H3Event) (exporter : list Otel.Span) :
  error err None exporter = (None, exporter)
  /\ (span (context event) = None ->
      error err (Some event) exporter = (Some event, exporter))
  /\ (forall sp,
         span (context event) = Some sp -> Otel.ended sp = false ->
         exists sp',
           error err (Some event) exporter
           = (Some (setSpan event (Some sp')), exporter ++ [sp'])
           /\ Otel.exceptions sp' = Otel.exceptions sp ++ [err]
           /\ Otel.status sp'
              = Otel.mkStatus Otel.ERROR (Some (Otel.exceptionMessage err))
           /\ Otel.attributes sp' = Otel.attributes sp
           /\ Otel.spanContext sp' = Otel.spanContext sp
           /\ Otel.ended sp' = true).
Proof.
  split; [reflexivity|]. split.
  - intros Hn. simpl. now rewrite Hn.
  - intros sp Hsp He.
    destruct (error_records_the_fault err event exporter sp Hsp He)
      as (sp' & H1 & H2 & H3 & H4 & H5).
    exists sp'. repeat split; try assumption.
    rewrite (error_active _ _ _ _ Hsp He) in H1. cbv zeta in H1.
    injection H1 as H1 _. rewrite <- H1. cbn [Otel.finish Otel.spanContext].
    now rewrite (proj1 (setStatus_frame _ _)), (proj1 (recordException_frame _ _)).
Qed.

Lemma error_hook_finishes_with_the_fault_witness :
  exists sp',
    error boom (Some exampleTracedEvent) []
    = (Some (setSpan exampleTracedEvent (Some sp')), [] ++ [sp'])
    /\ Otel.exceptions sp' = [] ++ [boom]
    /\ Otel.status sp' = Otel.mkStatus Otel.ERROR (Some "boom").
Proof.
  destruct (error_hook_finishes_with_the_fault boom exampleTracedEvent []) as (_ & _ & H).
  edestruct H as (sp' & H1 & H2 & H3 & _); [reflexivity | reflexivity |].
  exists sp'. split; [exact H1|]. split; [exact H2 | exact H3].
Defined.

(** ** Configurations that leave normalization off *)

(** X11.  Whatever goes wrong while the rule is read, the plugin ends
    up with no rule at all and [normalizePath] returns every path as it
    is: the variable is unset or empty, [JSON.parse] throws, the value
    is not an array, the array does not have two elements, or the
    pattern looks like a regular expression and [new RegExp] rejects
    it. *)
Theorem unreadable_rule_means_no_rule
        (engine : RegExp.Engine) (jsonParse : string -> option Parsed) :
  configure engine jsonParse None = unconfigured
  /\ configure engine jsonParse (Some EmptyString) = unconfigured
  /\ (forall env, jsonParse env = None ->
                  configure engine jsonParse (Some env) = unconfigured)
  /\ (forall env, jsonParse env = Some NotArray ->
                  configure engine jsonParse (Some env) = unconfigured)
  /\ (forall env items,
         jsonParse env = Some (JsonArray items) -> List.length items <> 2%nat ->
         configure engine jsonParse (Some env) = unconfigured)
  /\ (forall env pattern replacement,
         jsonParse env = Some (JsonArray [EString pattern; EString replacement]) ->
         looksLikeRegExp pattern -> RegExp.compiles engine pattern = false ->
         configure engine jsonParse (Some env) = unconfigured)
  /\ forall path, normalizePath engine unconfigured path = path.
Proof.
  split; [reflexivity|]. split; [reflexivity|].
  split; [|split; [|split; [|split]]].
  - intros env Hp. unfold configure. rewrite Hp. now destruct (JS.truthy env).
  - intros env Hp. unfold configure. rewrite Hp. now destruct (JS.truthy env).
  - intros env items Hp Hlen. unfold configure. rewrite Hp.
    destruct (JS.truthy env); [|reflexivity].
    destruct items as [|[] [|b [|c items]]]; try reflexivity. now contradict Hlen.
  - intros env pattern replacement Hp Hl Hc. unfold configure. rewrite Hp.
    destruct (JS.truthy env); [|reflexivity].
    apply regex_detection_spec in Hl. now rewrite Hl, Hc.
  - intros path. apply normalizePath_without_rule. now left.
Qed.

Lemma unreadable_rule_means_no_rule_witness :
  configure RegExp.reference (parsesTo ["only one"]) (Some "rule") = unconfigured
  /\ configure RegExp.reference (parsesTo ["(unclosed"; "/x/"]) (Some "rule") = unconfigured.
Proof.
  destruct (unreadable_rule_means_no_rule RegExp.reference (parsesTo ["only one"]))
    as (_ & _ & _ & _ & H1 & _).
  destruct (unreadable_rule_means_no_rule RegExp.reference (parsesTo ["(unclosed"; "/x/"]))
    as (_ & _ & _ & _ & _ & H2 & _).
  split.
  - apply (H1 "rule" [EString "only one"]); [reflexivity | discriminate].
  - apply (H2 "rule" "(unclosed" "/x/"); [reflexivity | | reflexivity].
    right. exists "("%char. split; [now left|]. unfold isMetachar. tauto.
Defined.

(** X12.  Whatever the environment holds, a rule without a pattern
    has no replacement either, a stored RegExp is one the engine
    accepted, built from a pattern that looks like a regular
    expression, and a stored string is a pattern that does not.  The
    converse of the first fails: the replacement is assigned as it
    is, so [["/api", null]] stores the pattern next to a [null]
    replacement, and [normalizePath] then returns every path as it
    is.  A pattern that is not a string leaves no rule, because
    [pattern.startsWith] throws before anything is assigned. *)
Theorem configured_rule_is_consistent
        (engine : RegExp.Engine) (jsonParse : string -> option Parsed)
        (env : option string) :
  (pathReplacePattern (configure engine jsonParse env) = None ->
   pathReplaceReplacement (configure engine jsonParse env) = None)
  /\ (forall source,
         pathReplacePattern (configure engine jsonParse env) = Some (PRegExp source) ->
         RegExp.compiles engine source = true /\ looksLikeRegExp source)
  /\ (forall s,
         pathReplacePattern (configure engine jsonParse env) = Some (PString s) ->
         ~ looksLikeRegExp s)
  /\ (forall text pattern replacement,
         env = Some text -> JS.truthy text = true ->
         jsonParse text = Some (JsonArray [EString pattern; replacement]) ->
         storedReplacement replacement = None ->
         ~ looksLikeRegExp pattern ->
         configure engine jsonParse env = mkPathReplace (Some (PString pattern)) None
         /\ forall path, normalizePath engine (configure engine jsonParse env) path = path)
  /\ (forall text pattern replacement,
         env = Some text ->
         jsonParse text = Some (JsonArray [pattern; replacement]) ->
         (forall s, pattern <> EString s) ->
         configure engine jsonParse env = unconfigured).
Proof.
  assert (Hun : (pathReplacePattern unconfigured = None ->
                 pathReplaceReplacement unconfigured = None)
                /\ (forall source, pathReplacePattern unconfigured = Some (PRegExp source) ->
                       RegExp.compiles engine source = true /\ looksLikeRegExp source)
                /\ (forall s, pathReplacePattern unconfigured = Some (PString s) ->
                       ~ looksLikeRegExp s)).
  { split; [reflexivity|]. split; intros ? H; discriminate H. }
  split; [|split; [|split; [|split]]].
  - unfold configure. destruct env as [env|]; [|reflexivity].
    destruct (JS.truthy env); [|reflexivity].
    destruct (jsonParse env) as [[|[|[pattern| | |] [|replacement [|]]]]|]; try reflexivity.
    destruct (JS.startsWith "^" pattern || testRegexSpecial pattern);
      [destruct (RegExp.compiles engine pattern)|]; simpl; solve [reflexivity | discriminate].
  - unfold configure. destruct env as [env|]; [|apply Hun].
    destruct (JS.truthy env); [|apply Hun].
    destruct (jsonParse env) as [[|[|[pattern| | |] [|replacement [|]]]]|]; try apply Hun.
    pose proof (regex_detection_spec pattern) as Hd.
    destruct (JS.startsWith "^" pattern || testRegexSpecial pattern).
    + destruct (RegExp.compiles engine pattern) eqn:Hc; [|apply Hun]. simpl.
      intros source [= <-]. split; [exact Hc | now apply Hd].
    + simpl. intros source H. discriminate H.
  - unfold configure. destruct env as [env|]; [|apply Hun].
    destruct (JS.truthy env); [|apply Hun].
    destruct (jsonParse env) as [[|[|[pattern| | |] [|replacement [|]]]]|]; try apply Hun.
    pose proof (regex_detection_spec pattern) as Hd.
    destruct (JS.startsWith "^" pattern || testRegexSpecial pattern).
    + destruct (RegExp.compiles engine pattern) eqn:Hc; [|apply Hun]. simpl.
      intros s H. discriminate H.
    + simpl. intros s [= <-] Hl. apply Hd in Hl. discriminate.
  - intros text pattern replacement -> Ht Hp Hr Hl.
    assert (Hc : configure engine jsonParse (Some text)
                 = mkPathReplace (Some (PString pattern)) None).
    { unfold configure. rewrite Ht, Hp, Hr.
      destruct (JS.startsWith "^" pattern || testRegexSpecial pattern) eqn:Hd;
        [|reflexivity].
      apply regex_detection_spec in Hd. contradiction. }
    split; [exact Hc|]. intros path. rewrite Hc.
    apply normalizePath_without_rule. now right.
  - intros text pattern replacement -> Hp Hne. unfold configure. rewrite Hp.
    destruct (JS.truthy text); [|reflexivity].
    destruct pattern as [s| | |]; [now destruct (Hne s) | reflexivity..].
Qed.

Lemma configured_rule_is_consistent_witness :
  (RegExp.compiles RegExp.reference "^/(en|de|fr)/" = true
   /\ looksLikeRegExp "^/(en|de|fr)/")
  /\ configure RegExp.reference (fun _ => Some (JsonArray [EString "/api"; ENull]))
               (Some "rule")
     = mkPathReplace (Some (PString "/api")) None
  /\ configure RegExp.reference (fun _ => Some (JsonArray [ENumber 5; EString "x"]))
               (Some "rule")
     = unconfigured.
Proof.
  split; [|split].
  - destruct (configured_rule_is_consistent RegExp.reference (parsesTo localeRule)
                (Some "rule")) as (_ & H & _).
    apply H. reflexivity.
  - destruct (configured_rule_is_consistent RegExp.reference
                (fun _ => Some (JsonArray [EString "/api"; ENull]))
                (Some "rule")) as (_ & _ & _ & H & _).
    apply (H "rule" "/api" ENull); try reflexivity.
    intros Hl. apply regex_detection_spec in Hl. discriminate.
  - destruct (configured_rule_is_consistent RegExp.reference
                (fun _ => Some (JsonArray [ENumber 5; EString "x"]))
                (Some "rule")) as (_ & _ & _ & _ & H).
    apply (H "rule" (ENumber 5) (EString "x")); try reflexivity.
    intros s Hs. discriminate Hs.
Defined.

(** ** A string as the pattern *)

#[local] Arguments String.append !s1 s2 / : simpl nomatch.

Lemma append_empty_r s : s +:+ EmptyString = s.
Proof. induction s as [|c s IH]; simpl; congruence. Qed.

Lemma substring_all s : String.substring 0 (String.length s) s = s.
Proof. induction s as [|c s IH]; simpl; [reflexivity | now rewrite IH]. Qed.

Lemma substring_zero_zero s : String.substring 0 0 s = EmptyString.
Proof. now destruct s. Qed.

Lemma substring_length_le s n m :
  (String.length (String.substring n m s) <= m)%nat
  /\ (n + String.length (String.substring n m s) <= Nat.max n (String.length s))%nat.
Proof.
  revert n m. induction s as [|c s IH]; intros n m.
  - destruct n, m; simpl; lia.
  - destruct n as [|n].
    + destruct m as [|m]; simpl; [lia|]. specialize (IH 0%nat m). simpl in IH. lia.
    + simpl. specialize (IH n m). lia.
Qed.

(** A substring of full length cuts the string in three. *)
Lemma substring_decompose s n m :
  String.length (String.substring n m s) = m ->
  (m = 0%nat -> n <= String.length s)%nat ->
  s = String.substring 0 n s +:+ String.substring n m s
      +:+ JS.substringFrom (n + m) s
  /\ String.length (String.substring 0 n s) = n.
Proof.
  unfold JS.substringFrom.
  revert n m. induction s as [|c s IH]; intros n m Hlen Hz.
  - destruct n, m; simpl in *; try discriminate; try (specialize (Hz eq_refl); lia).
    now split.
  - destruct n as [|n].
    + destruct m as [|m].
      * simpl. rewrite substring_all. now split.
      * simpl in Hlen. injection Hlen as Hlen.
        destruct (IH 0%nat m) as [Heq _]; [now rewrite Hlen | lia|].
        rewrite substring_zero_zero in Heq. simpl in Heq. simpl.
        split; [now rewrite <- Heq | reflexivity].
    + simpl in Hlen. destruct (IH n m Hlen) as [Heq Hn].
      { intros H0. specialize (Hz H0). simpl in Hz. lia. }
      simpl. split; [now rewrite <- Heq | now rewrite Hn].
Qed.

Lemma indexOf_decompose search s pos :
  search <> EmptyString ->
  JS.indexOf search s = Some pos ->
  s = String.substring 0 pos s +:+ search
      +:+ JS.substringFrom (pos + String.length search) s
  /\ String.length (String.substring 0 pos s) = pos.
Proof.
  intros Hne Hi. unfold JS.indexOf in Hi.
  pose proof (index_correct1 _ _ _ _ Hi) as Hsub.
  destruct (substring_decompose s pos (String.length search)) as [Heq Hlen].
  - now rewrite Hsub.
  - intros H0. destruct search; [congruence | discriminate].
  - rewrite Hsub in Heq. now split.
Qed.

Lemma getSubstitution_other matched before after captures c rest :
  c <> "$"%char ->
  JS.getSubstitution matched before after captures (String c rest)
  = String c (JS.getSubstitution matched before after captures rest).
Proof.
  intros Hc. destruct c as [[] [] [] [] [] [] [] []]; try reflexivity. congruence.
Qed.

(** A template without [$] is inserted as it is. *)
Lemma getSubstitution_plain matched before after captures template :
  plainTemplate template = true ->
  JS.getSubstitution matched before after captures template = template.
Proof.
  unfold plainTemplate. induction template as [|c rest IH]; [reflexivity|].
  cbn [list_ascii_of_string forallb]. intros H. apply andb_prop in H as [Hc Hrest].
  rewrite getSubstitution_other.
  - now rewrite IH.
  - intros ->. discriminate.
Qed.

Lemma normalizePath_string engine search replacement path :
  search <> EmptyString -> replacement <> EmptyString ->
  normalizePath engine (mkPathReplace (Some (PString search)) (Some replacement)) path
  = JS.replaceString search replacement path.
Proof.
  intros Hs Hr. unfold normalizePath. simpl.
  apply truthy_nonempty in Hs, Hr. now rewrite Hs, Hr.
Qed.

(** X13.  A rule whose pattern is a plain string rewrites the first
    occurrence of the pattern and nothing else: the path is cut
    around that occurrence, and with a replacement that contains no
    [$] the result is what lies before it, the replacement, and what
    lies after it. *)
Theorem string_rule_rewrites_the_first_occurrence
        (engine : RegExp.Engine) (search replacement path : string) (pos : nat) :
  search <> EmptyString -> replacement <> EmptyString ->
  plainTemplate replacement = true ->
  JS.indexOf search path = Some pos ->
  exists before after,
    path = before +:+ search +:+ after
    /\ String.length before = pos
    /\ (forall p, (p < pos)%nat ->
                  String.substring p (String.length search) path <> search)
    /\ normalizePath engine (mkPathReplace (Some (PString search)) (Some replacement)) path
       = before +:+ replacement +:+ after.
Proof.
  intros Hs Hr Hplain Hi.
  destruct (indexOf_decompose search path pos Hs Hi) as [Heq Hlen].
  exists (String.substring 0 pos path),
         (JS.substringFrom (pos + String.length search) path).
  split; [exact Heq|]. split; [exact Hlen|]. split.
  - intros p Hp. unfold JS.indexOf in Hi.
    apply (index_correct2 _ _ _ _ Hi p); [lia | exact Hp].
  - rewrite normalizePath_string by assumption.
    unfold JS.replaceString. rewrite Hi. now rewrite getSubstitution_plain.
Qed.

Lemma string_rule_rewrites_the_first_occurrence_witness :
  exists before after,
    "/api/internal/x/api/internal/y" = before +:+ "/api/internal/" +:+ after
    /\ String.length before = 0%nat
    /\ (forall p, (p < 0)%nat ->
                  String.substring p (String.length "/api/internal/")
                                   "/api/internal/x/api/internal/y" <> "/api/internal/")
    /\ normalizePath RegExp.reference
         (mkPathReplace (Some (PString "/api/internal/")) (Some "/api/"))
         "/api/internal/x/api/internal/y"
       = before +:+ "/api/" +:+ after.
Proof.
  apply (string_rule_rewrites_the_first_occurrence RegExp.reference
           "/api/internal/" "/api/" "/api/internal/x/api/internal/y" 0);
    [discriminate | discriminate | reflexivity | reflexivity].
Defined.

(** X14.  The replacement is a template, also for a string pattern:
    [$&] stands for the matched text and [$$] for one [$].  So the
    rule with replacement [$&] returns every path as it is, and the
    rule with replacement [$$] puts a single [$] where the pattern
    was. *)
Theorem replacement_is_a_template (engine : RegExp.Engine) (search path : string) :
  normalizePath engine (mkPathReplace (Some (PString search)) (Some "$&")) path = path
  /\ forall pos,
      search <> EmptyString ->
      JS.indexOf search path = Some pos ->
      normalizePath engine (mkPathReplace (Some (PString search)) (Some "$$")) path
      = String.substring 0 pos path +:+ "$"
        +:+ JS.substringFrom (pos + String.length search) path.
Proof.
  split.
  - destruct (String.eqb_spec search EmptyString) as [->|Hs].
    + reflexivity.
    + rewrite normalizePath_string by (assumption || discriminate).
      unfold JS.replaceString. destruct (JS.indexOf search path) as [pos|] eqn:Hi;
        [|reflexivity].
      destruct (indexOf_decompose search path pos Hs Hi) as [Heq _].
      cbn [JS.getSubstitution Ascii.eqb Bool.eqb]. cbv beta iota.
      rewrite append_empty_r. now rewrite <- Heq.
  - intros pos Hs Hi. rewrite normalizePath_string by (assumption || discriminate).
    unfold JS.replaceString. now rewrite Hi.
Qed.

Lemma replacement_is_a_template_witness :
  normalizePath RegExp.reference (mkPathReplace (Some (PString "/en/")) (Some "$$"))
                "/en/api/hash"
  = String.substring 0 0 "/en/api/hash" +:+ "$"
    +:+ JS.substringFrom (0 + String.length "/en/") "/en/api/hash".
Proof.
  destruct (replacement_is_a_template RegExp.reference "/en/" "/en/api/hash") as [_ H].
  apply (H 0%nat); [discriminate | reflexivity].
Defined.

(** X15.  An empty pattern switches the rule off like an empty
    replacement does: it is kept as a string, the guard of
    [normalizePath] takes it for no pattern, and every path is
    returned as it is, where [replace] itself would have put the
    replacement in front of the path. *)
Theorem empty_pattern_disables_the_rule
        (engine : RegExp.Engine) (jsonParse : string -> option Parsed)
        (env replacement path : string) :
  jsonParse env = Some (JsonArray [EString EmptyString; EString replacement]) ->
  normalizePath engine (configure engine jsonParse (Some env)) path = path
  /\ (JS.truthy env = true ->
      configure engine jsonParse (Some env)
      = mkPathReplace (Some (PString EmptyString)) (Some replacement))
  /\ (plainTemplate replacement = true ->
      JS.replaceString EmptyString replacement path = replacement +:+ path).
Proof.
  intros Hp.
  assert (Hoff : forall r, normalizePath engine
                   (mkPathReplace (Some (PString EmptyString)) (Some r)) path = path)
    by reflexivity.
  split; [|split].
  - unfold configure. rewrite Hp. destruct (JS.truthy env); [apply Hoff|].
    apply normalizePath_without_rule. now left.
  - intros Ht. unfold configure. now rewrite Ht, Hp.
  - intros Hplain. unfold JS.replaceString, JS.indexOf.
    assert (Hi : String.index 0 EmptyString path = Some 0%nat) by now destruct path.
    rewrite Hi. rewrite getSubstitution_plain by exact Hplain.
    rewrite substring_zero_zero. unfold JS.substringFrom. simpl.
    now rewrite Nat.sub_0_r, substring_all.
Qed.

Lemma empty_pattern_disables_the_rule_witness :
  normalizePath RegExp.reference
    (configure RegExp.reference (parsesTo [EmptyString; "/x"]) (Some "rule")) "/en/api/hash"
  = "/en/api/hash".
Proof.
  destruct (empty_pattern_disables_the_rule RegExp.reference
              (parsesTo [EmptyString; "/x"]) "rule" "/x" "/en/api/hash" eq_refl) as [H _].
  exact H.
Defined.

(** ** The documented locale rule *)

Lemma execFrom_anchored r groups start input :
  (0 < start)%nat ->
  RegExp.execFrom (RegExp.Seq RegExp.Bol r) groups start input = None.
Proof.
  revert start. induction input as [|c input IH]; intros start Hpos;
    cbn [RegExp.execFrom RegExp.matchRe RegExp.pos];
    destruct (Nat.eqb_spec start 0) as [->|_]; try lia; [reflexivity|].
  apply IH. lia.
Qed.

Lemma prefix_empty s : String.prefix EmptyString s = true.
Proof. now destruct s. Qed.

Lemma locale_rule_parse :
  RegExp.parse "^/(en|de|fr)/"
  = Some (RegExp.Seq RegExp.Bol
            (RegExp.Seq (RegExp.Chr "/")
               (RegExp.Seq
                  (RegExp.Group 0
                     (RegExp.Alt
                        (RegExp.Seq (RegExp.Chr "e") (RegExp.Seq (RegExp.Chr "n") RegExp.Empty))
                        (RegExp.Alt
                           (RegExp.Seq (RegExp.Chr "d")
                              (RegExp.Seq (RegExp.Chr "e") RegExp.Empty))
                           (RegExp.Seq (RegExp.Chr "f")
                              (RegExp.Seq (RegExp.Chr "r") RegExp.Empty)))))
                  (RegExp.Seq (RegExp.Chr "/") RegExp.Empty))), 1%nat).
Proof. reflexivity. Qed.

Lemma locale_rule_no_match path :
  JS.startsWith "/en/" path = false ->
  JS.startsWith "/de/" path = false ->
  JS.startsWith "/fr/" path = false ->
  RegExp.exec RegExp.reference "^/(en|de|fr)/" path = None.
Proof.
  unfold JS.startsWith. intros Hen Hde Hfr.
  unfold RegExp.reference, RegExp.exec. rewrite locale_rule_parse.
  destruct path as [|c1 p1]; [reflexivity|].
  cbn [list_ascii_of_string RegExp.execFrom].
  rewrite execFrom_anchored by lia.
  repeat (cbn -[Ascii.eqb String.prefix];
          match goal with
          | |- context [Ascii.eqb ?a ?b] =>
              first [ is_var b; destruct (Ascii.eqb_spec a b) as [<-|?]
                    | let v := eval vm_compute in (Ascii.eqb a b) in
                      change (Ascii.eqb a b) with v ]
          | |- context [list_ascii_of_string ?p] => is_var p; destruct p
          end);
    cbn -[Ascii.eqb String.prefix]; try reflexivity.
  all: exfalso; simpl in Hen, Hde, Hfr; rewrite ?prefix_empty in *; congruence.
Qed.

Lemma locale_rule_match loc rest :
  loc = "en" \/ loc = "de" \/ loc = "fr" ->
  RegExp.exec RegExp.reference "^/(en|de|fr)/" ("/" +:+ loc +:+ "/" +:+ rest)
  = Some (RegExp.mkMatch 0 ("/" +:+ loc +:+ "/") [Some loc]).
Proof. intros [-> | [-> | ->]]; reflexivity. Qed.

(** X16.  The locale rule of the documentation, [^/(en|de|fr)/] with
    replacement [/:locale/], read by the reference engine: a path
    under [/en/], [/de/] or [/fr/] has that prefix replaced and the
    remainder kept, whatever the remainder is, and every other path is
    returned as it is, also when the locale occurs further inside. *)
Theorem locale_rule_rewrites_only_the_prefix :
  (forall loc rest,
      loc = "en" \/ loc = "de" \/ loc = "fr" ->
      normalizePath RegExp.reference
        (mkPathReplace (Some (PRegExp "^/(en|de|fr)/")) (Some "/:locale/"))
        ("/" +:+ loc +:+ "/" +:+ rest)
      = "/:locale/" +:+ rest)
  /\ (forall path,
         JS.startsWith "/en/" path = false ->
         JS.startsWith "/de/" path = false ->
         JS.startsWith "/fr/" path = false ->
         normalizePath RegExp.reference
           (mkPathReplace (Some (PRegExp "^/(en|de|fr)/")) (Some "/:locale/")) path
         = path).
Proof.
  split.
  - intros loc rest Hloc.
    unfold normalizePath. cbn [pathReplacePattern pathReplaceReplacement patternTruthy
                               JS.truthy_opt negb orb].
    change (JS.truthy "/:locale/") with true. cbn [negb orb].
    unfold RegExp.replaceRegExp. rewrite (locale_rule_match loc rest Hloc).
    cbn [RegExp.index RegExp.matched RegExp.captures].
    rewrite getSubstitution_plain by reflexivity.
    destruct Hloc as [-> | [-> | ->]]; unfold JS.substringFrom; simpl;
      now rewrite Nat.sub_0_r, substring_all.
  - intros path Hen Hde Hfr. apply normalizePath_no_match.
    unfold patternMatches. cbn [pathReplacePattern].
    now rewrite (locale_rule_no_match path Hen Hde Hfr).
Qed.

Lemma locale_rule_rewrites_only_the_prefix_witness :
  normalizePath RegExp.reference
    (mkPathReplace (Some (PRegExp "^/(en|de|fr)/")) (Some "/:locale/"))
    ("/" +:+ "de" +:+ "/" +:+ "api/users")
  = "/:locale/" +:+ "api/users"
  /\ normalizePath RegExp.reference
       (mkPathReplace (Some (PRegExp "^/(en|de|fr)/")) (Some "/:locale/")) "/api/en/users"
     = "/api/en/users".
Proof.
  destruct locale_rule_rewrites_only_the_prefix as [H1 H2]. split.
  - apply H1. right. now left.
  - apply H2; reflexivity.
Defined.
